(** * planer: the confirmation-code mail server (server.js)

    A shallow embedding of the delivery pipeline of [server.js]: the
    in-memory rate limiter ([cleanupAttempts], [recordAttempt], [canSend]),
    the bounded retry sender ([retrySend]), the background worker installed
    with [setInterval], and the [POST /send-code] handler.

    The module-level state of the script ([sendAttempts], [FAILED_QUEUE]),
    the wall clock read by [Date.now()], and the effects on the outside
    world (calls of [transporter.sendMail], awaited timers, console output)
    are threaded through a state-and-exception monad over [World].  Every
    [async] function is run to completion on its own: the interleaving of
    several pending handlers at their [await] points is not part of the
    model.  The clock stands still during synchronous code and during a
    [sendMail] call; it advances by the awaited timers and by [tick] between
    two runs of a handler. *)

From stdpp Require Import gmap strings list.


(** ** Values crossing the boundary *)

(** A property that is either absent ([undefined]) or a string, which is
    what the three fields of the body and the addresses of the request are
    taken to be; a string is falsy exactly when it is empty. *)
Definition truthy (v : option string) : bool :=
  match v with
  | Some s => negb (String.eqb s ""%string)
  | None => false
  end.

(** [a || b] on such values. *)
Definition js_or (a b : option string) : option string :=
  if truthy a then a else b.

(** [process.env]. *)
Record Env := {
  env_SMTP_HOST : option string;
  env_SMTP_PORT : option string;
  env_SMTP_USER : option string;
  env_SMTP_PASS : option string;
  env_FROM_EMAIL : option string
}.

Definition Info := string.   (* what [sendMail] resolves with: the message id *)
Definition Err := string.    (* what a rejected promise carries *)

Record MailOptions := {
  mail_from : option string;
  mail_to : string;
  mail_subject : string;
  mail_text : string;
  mail_html : string
}.

(** How the promise returned by [transporter.sendMail] settles. *)
Inductive Settled :=
| Resolved (info : Info)
| Rejected (err : Err).

(** Items of [FAILED_QUEUE]: [{ email, username, code, attempts }].  Every
    item the script pushes carries a numeric [attempts], so the default
    [attempts = 0] of the worker's destructuring never applies. *)
Record Item := {
  email : string;
  username : string;
  code : string;
  attempts : nat
}.

(** [{ ...item, attempts: n }] *)
Definition with_attempts (item : Item) (n : nat) : Item :=
  {| email := email item; username := username item; code := code item;
     attempts := n |}.

(** [req.body] after [bodyParser.json()], and the request around it. *)
Record Body := {
  body_email : option string;
  body_username : option string;
  body_code : option string
}.

Record Request := {
  req_body : option Body;
  req_ip : option string;
  req_remoteAddress : option string
}.

(** What the handler answers: [res.status(s).json({ ok, simulated, message })];
    [res.json] alone answers with status 200. *)
Record Response := {
  status : nat;
  ok : bool;
  simulated : option bool;
  message : option string
}.

(** The value [retrySend] resolves with: [{ ok, info }], [{ ok, err }] or
    [{ ok }]. *)
Record SendResult := {
  res_ok : bool;
  res_info : option Info;
  res_err : option Err
}.

(** ** The world *)

Inductive Event :=
| SendMail (mail : MailOptions) (r : Settled)  (* one [transporter.sendMail] call *)
| Sleep (ms : Z)                               (* an awaited [setTimeout] *)
| Recorded (key : string) (t : Z)              (* [arr.push(Date.now())] *)
| ConsoleLog (label : string)
| ConsoleError (label : string).

Record World := {
  clock : Z;                             (* [Date.now()] *)
  sendAttempts : gmap string (list Z);   (* key: email or ip, value: timestamps *)
  FAILED_QUEUE : list Item;
  sent : nat;                            (* [sendMail] calls made so far *)
  trace : list Event
}.

Definition set_sendAttempts (m : gmap string (list Z)) (w : World) : World :=
  {| clock := clock w; sendAttempts := m; FAILED_QUEUE := FAILED_QUEUE w;
     sent := sent w; trace := trace w |}.

Definition set_FAILED_QUEUE (q : list Item) (w : World) : World :=
  {| clock := clock w; sendAttempts := sendAttempts w; FAILED_QUEUE := q;
     sent := sent w; trace := trace w |}.

Definition emit (ev : Event) (w : World) : World :=
  {| clock := clock w; sendAttempts := sendAttempts w;
     FAILED_QUEUE := FAILED_QUEUE w; sent := sent w;
     trace := (trace w ++ [ev])%list |}.

(** A [sendMail] call that settled as [r]. *)
Definition note_send (mail : MailOptions) (r : Settled) (w : World) : World :=
  {| clock := clock w; sendAttempts := sendAttempts w;
     FAILED_QUEUE := FAILED_QUEUE w; sent := S (sent w);
     trace := (trace w ++ [SendMail mail r])%list |}.

(** Time passing between two runs of the event loop. *)
Definition tick (d : Z) (w : World) : World :=
  {| clock := (clock w + d)%Z; sendAttempts := sendAttempts w;
     FAILED_QUEUE := FAILED_QUEUE w; sent := sent w; trace := trace w |}.

(** ** The monad: state, exceptions, and running out of fuel *)

Inductive Completion (A : Type) :=
| Normal (a : A)
| Throw (e : Err)
| OutOfFuel.
Arguments Normal {A} a.
Arguments Throw {A} e.
Arguments OutOfFuel {A}.

Definition M (A : Type) : Type := World -> Completion A * World.

Definition ret {A} (a : A) : M A := fun w => (Normal a, w).

Definition bind {A B} (c : M A) (k : A -> M B) : M B :=
  fun w =>
    match c w with
    | (Normal a, w') => k a w'
    | (Throw e, w') => (Throw e, w')
    | (OutOfFuel, w') => (OutOfFuel, w')
    end.

(** [try { c } catch (e) { h e }]: what [c] did to the world before it threw
    stays done. *)
Definition try_catch {A} (c : M A) (h : Err -> M A) : M A :=
  fun w =>
    match c w with
    | (Throw e, w') => h e w'
    | r => r
    end.

Definition gets {A} (f : World -> A) : M A := fun w => (Normal (f w), w).
Definition modify (f : World -> World) : M unit := fun w => (Normal tt, f w).

Declare Scope js_scope.
Delimit Scope js_scope with js.
Notation "x <- c ;; k" := (bind c (fun x => k))
  (at level 100, c at next level, right associativity) : js_scope.
Notation "c ;;; k" := (bind c (fun _ => k))
  (at level 100, right associativity) : js_scope.
Local Open Scope js_scope.

Definition Date_now : M Z := gets clock.
Definition console_log (label : string) : M unit := modify (emit (ConsoleLog label)).
Definition console_error (label : string) : M unit := modify (emit (ConsoleError label)).

(** [await new Promise(r => setTimeout(r, ms))] *)
Definition sleep (ms : Z) : M unit :=
  modify (fun w => emit (Sleep ms) (tick ms w)).

(** ** Constants *)

Definition MAX_ATTEMPTS : nat := 3.
Definition WINDOW_MS : Z := 15 * 60 * 1000.
Definition RETRY_LIMIT : nat := 3.
Definition delays : list Z := [1000; 3000; 7000]%Z.

Section Server.

Variable env : Env.

(** The [n]-th call of [transporter.sendMail], counted from 0 over the life
    of the process, settles as [transport n mail]. *)
Variable transport : nat -> MailOptions -> Settled.

Definition FROM_EMAIL : option string :=
  js_or (env_FROM_EMAIL env) (env_SMTP_USER env).

(** [Boolean(SMTP_HOST && SMTP_USER && SMTP_PASS)] *)
Definition SMTP_CONFIGURED : bool :=
  truthy (env_SMTP_HOST env) && truthy (env_SMTP_USER env)
  && truthy (env_SMTP_PASS env).

(** [await transporter.sendMail(mailOptions)]: resolves with the info or
    throws the rejection. *)
Definition sendMail (mailOptions : MailOptions) : M Info :=
  fun w =>
    let r := transport (sent w) mailOptions in
    let w' := note_send mailOptions r w in
    match r with
    | Resolved info => (Normal info, w')
    | Rejected err => (Throw err, w')
    end.

(** ** Rate limiting *)

Definition cleanupAttempts (key : string) : M (list Z) :=
  now <- Date_now ;;
  arr <- gets (fun w => default [] (sendAttempts w !! key)) ;;
  let filtered := filter (fun t => (now - t < WINDOW_MS)%Z) arr in
  modify (fun w => set_sendAttempts (<[key := filtered]> (sendAttempts w)) w) ;;;
  ret filtered.

(** [arr] is the array just stored by [cleanupAttempts]; the push mutates it
    in place and the [set] stores the same array again.  The trace keeps a
    note of the push. *)
Definition recordAttempt (key : string) : M unit :=
  arr <- cleanupAttempts key ;;
  now <- Date_now ;;
  modify (emit (Recorded key now)) ;;;
  modify (fun w => set_sendAttempts (<[key := (arr ++ [now])%list]> (sendAttempts w)) w).

Definition canSend (key : string) : M bool :=
  arr <- cleanupAttempts key ;;
  ret (length arr <? MAX_ATTEMPTS).

(** ** The bounded retry sender *)

(** The [while (attempt < RETRY_LIMIT)] loop of [retrySend], entered with
    the current value of [attempt]; [fuel] bounds the number of iterations. *)
Fixpoint retrySend_loop (fuel : nat) (attempt : nat) (mailOptions : MailOptions)
  : M SendResult :=
  match fuel with
  | O => fun w => (OutOfFuel, w)
  | S fuel' =>
    if attempt <? RETRY_LIMIT then
      try_catch
        (info <- sendMail mailOptions ;;
         ret {| res_ok := true; res_info := Some info; res_err := None |})
        (fun err =>
           let attempt := attempt + 1 in
           if RETRY_LIMIT <=? attempt then
             ret {| res_ok := false; res_info := None; res_err := Some err |}
           else
             sleep (nth (Nat.min (attempt - 1) (length delays - 1)) delays 0%Z) ;;;
             retrySend_loop fuel' attempt mailOptions)
    else
      (* the [return { ok: false }] after the loop *)
      ret {| res_ok := false; res_info := None; res_err := None |}
  end.

Definition retrySend (mailOptions : MailOptions) : M SendResult :=
  retrySend_loop (S RETRY_LIMIT) 0 mailOptions.

(** ** The background worker (one run of the [setInterval] callback) *)

Definition worker_mail (item : Item) : MailOptions :=
  {| mail_from := FROM_EMAIL;
     mail_to := email item;
     mail_subject := "Код підтвердження для " +:+ username item;
     mail_text := "Ваш код підтвердження: " +:+ code item;
     mail_html := "<p>Привіт, " +:+ username item
                  +:+ "!</p><p>Ваш код підтвердження: <b>" +:+ code item
                  +:+ "</b></p>" |}.

(** [FAILED_QUEUE.shift()] *)
Definition shift : M (option Item) :=
  fun w =>
    match FAILED_QUEUE w with
    | [] => (Normal None, w)
    | item :: rest => (Normal (Some item), set_FAILED_QUEUE rest w)
    end.

(** [FAILED_QUEUE.push(item)] *)
Definition push (item : Item) : M unit :=
  modify (fun w => set_FAILED_QUEUE (FAILED_QUEUE w ++ [item])%list w).

Definition worker : M unit :=
  if negb SMTP_CONFIGURED then ret tt else
  len <- gets (fun w => length (FAILED_QUEUE w)) ;;
  if len =? 0 then ret tt else
  item <- shift ;;
  match item with
  | None => ret tt
  | Some item =>
    if RETRY_LIMIT <=? attempts item then
      console_error "Dropping failed send after retries for"
    else
      let mail := worker_mail item in
      try_catch
        (res <- retrySend mail ;;
         if negb (res_ok res) then
           push (with_attempts item (attempts item + 1))
         else ret tt)
        (fun e => push (with_attempts item (attempts item + 1)))
  end.

(** ** The [POST /send-code] handler *)

Definition request_mail (email username code : string) : MailOptions :=
  {| mail_from := FROM_EMAIL;
     mail_to := email;
     mail_subject := "Код підтвердження для " +:+ username;
     mail_text := "Ваш код підтвердження: " +:+ code;
     mail_html := "<p>Привіт, " +:+ username
                  +:+ "!</p><p>Ваш код підтвердження: <b>" +:+ code
                  +:+ "</b></p><p>Якщо це не ви — ігноруйте цей лист.</p>" |}.

Definition json (st : nat) (o : bool) (sim : option bool) (msg : option string)
  : Response :=
  {| status := st; ok := o; simulated := sim; message := msg |}.

Definition missing_response : Response :=
  json 400 false None (Some "Missing email, username or code").
Definition simulated_response : Response := json 200 true (Some true) None.
Definition throttled_response : Response :=
  json 429 false None (Some "Too many requests. Try later.").
Definition delivered_response : Response := json 200 true None None.
Definition queued_response : Response :=
  json 202 false None (Some "Queued for retry").

(** [const { email, username, code } = req.body || {}] *)
Definition fields (req : Request) : option string * option string * option string :=
  match req_body req with
  | Some b => (body_email b, body_username b, body_code b)
  | None => (None, None, None)
  end.

(** [req.ip || req.connection.remoteAddress || 'unknown'] *)
Definition caller_ip (req : Request) : string :=
  default "unknown"
    (js_or (js_or (req_ip req) (req_remoteAddress req)) (Some "unknown")).

(** The [try { ... } catch (err) { ... }] block that ends the handler, with
    the sender it awaits as [send]. *)
Definition deliver_or_queue (send : M SendResult) (email username code : string)
  : M Response :=
  try_catch
    (result <- send ;;
     if res_ok result then
       console_log "Email sent:" ;;;
       ret delivered_response
     else
       console_error "Send failed, queuing for retry" ;;;
       push {| email := email; username := username; code := code; attempts := 0 |} ;;;
       ret queued_response)
    (fun err =>
       console_error "Error sending email" ;;;
       push {| email := email; username := username; code := code; attempts := 0 |} ;;;
       ret queued_response).

Definition send_code (req : Request) : M Response :=
  let '(email, username, code) := fields req in
  if negb (truthy email) || negb (truthy code) || negb (truthy username) then
    ret missing_response
  else
  let email := default ""%string email in
  let username := default ""%string username in
  let code := default ""%string code in
  if negb SMTP_CONFIGURED then
    console_log "[SIMULATION] send-code" ;;;
    ret simulated_response
  else
  let ip := caller_ip req in
  e_ok <- canSend email ;;
  (* [||] evaluates [!canSend(ip)] only when [canSend(email)] held *)
  limited <- (if negb e_ok then ret true
              else i_ok <- canSend ip ;; ret (negb i_ok)) ;;
  if (limited : bool) then ret throttled_response else
  recordAttempt email ;;;
  recordAttempt ip ;;;
  let mail := request_mail email username code in
  deliver_or_queue (retrySend mail) email username code.

(** [n] runs of the worker, one after the other. *)
Fixpoint cycles (n : nat) (w : World) : World :=
  match n with
  | O => w
  | S n' => cycles n' (snd (worker w))
  end.

(** Requests handled one after the other, each followed by a pause of [d]
    milliseconds. *)
Fixpoint serve (reqs : list (Request * Z)) (w : World) : World :=
  match reqs with
  | [] => w
  | (req, d) :: rest => serve rest (tick d (snd (send_code req w)))
  end.

End Server.

(** ** Vocabulary of the statements *)

(** The timestamps stored for [key] ([sendAttempts.get(key) || []]). *)
Definition ledger (w : World) (key : string) : list Z :=
  default [] (sendAttempts w !! key).

(** Those of them that lie in the window at the time of [w]. *)
Definition live (w : World) (key : string) : list Z :=
  filter (fun t => (clock w - t < WINDOW_MS)%Z) (ledger w key).

(** The world after [cleanupAttempts(key)] and after [recordAttempt(key)]. *)
Definition purge (key : string) (w : World) : World :=
  set_sendAttempts (<[key := live w key]> (sendAttempts w)) w.

Definition record (key : string) (w : World) : World :=
  set_sendAttempts
    (<[key := (live w key ++ [clock w])%list]> (sendAttempts (purge key w)))
    (emit (Recorded key (clock w)) (purge key w)).

(** The three fields of the request and what the handler asks of them. *)
Definition recipient (req : Request) : option string := (fields req).1.1.
Definition displayName (req : Request) : option string := (fields req).1.2.
Definition code_of (req : Request) : option string := (fields req).2.

Definition missing_or_empty (v : option string) : Prop :=
  v = None \/ v = Some ""%string.

Definition valid (req : Request) : Prop :=
  exists e u c,
    fields req = (Some e, Some u, Some c)
    /\ e <> ""%string /\ u <> ""%string /\ c <> ""%string.

(** The key under which the recipient is rate limited. *)
Definition recipient_key (req : Request) : string :=
  default ""%string (recipient req).

(** The message the handler sends for a request. *)
Definition mail_of (env : Env) (req : Request) : MailOptions :=
  request_mail env (recipient_key req)
    (default ""%string (displayName req)) (default ""%string (code_of req)).

(** The item the handler queues for a request. *)
Definition item_of (req : Request) : Item :=
  {| email := recipient_key req;
     username := default ""%string (displayName req);
     code := default ""%string (code_of req);
     attempts := 0 |}.

(** Both keys of the request are below the limit at the time of [w]. *)
Definition within_limit (w : World) (req : Request) : Prop :=
  length (live w (recipient_key req)) < MAX_ATTEMPTS
  /\ length (live w (caller_ip req)) < MAX_ATTEMPTS.

(** All stored timestamps are in the window at the time of [w]. *)
Definition all_live (w : World) : Prop :=
  forall key t, t ∈ ledger w key -> (clock w - t < WINDOW_MS)%Z.

(** The lists while requests for the recipient key [e] are served from time
    [c0] on: every stored timestamp lies between [c0] and now, and after [i]
    requests the list of [e] has reached the limit, or it holds at least [i]
    entries while no other list holds more than [i]. *)
Definition served (c0 : Z) (e : string) (i : nat) (w : World) : Prop :=
  (c0 <= clock w)%Z
  /\ (forall key t, t ∈ ledger w key -> (c0 <= t <= clock w)%Z)
  /\ (MAX_ATTEMPTS <= length (ledger w e)
      \/ (i <= length (ledger w e)
          /\ forall key, key <> e -> length (ledger w key) <= i)).

Definition is_rejected (r : Settled) : bool :=
  match r with Rejected _ => true | Resolved _ => false end.

(** The schedule the specification gives for the bounded retry sender: the
    attempts one after the other, and after the failed attempt number
    [attemptIndex] (from 0), when another attempt follows, a wait of
    [delays[min(attemptIndex, delays.length - 1)]]. *)
Fixpoint backoff_trace (mail : MailOptions) (attemptIndex : nat)
    (outcomes : list Settled) : list Event :=
  match outcomes with
  | [] => []
  | [r] => [SendMail mail r]
  | r :: rest =>
    SendMail mail r
    :: Sleep (nth (Nat.min attemptIndex (length delays - 1)) delays 0%Z)
    :: backoff_trace mail (S attemptIndex) rest
  end.

(** The outcomes of the [n] calls of [sendMail] that follow [base] calls. *)
Definition outcomes_from (transport : nat -> MailOptions -> Settled)
    (mail : MailOptions) (base n : nat) : list Settled :=
  map (fun j => transport (base + j) mail) (seq 0 n).

(** What a run of the retry loop that made [k] attempts, the first of them
    numbered [attempt], leaves behind: the rate limiter and the queue as they
    were, [k] more calls of [sendMail], and the scheduled trace. *)
Definition retry_run (transport : nat -> MailOptions -> Settled)
    (mail : MailOptions) (attempt : nat) (w : World) (k : nat) (w' : World)
  : Prop :=
  sendAttempts w' = sendAttempts w
  /\ FAILED_QUEUE w' = FAILED_QUEUE w
  /\ sent w' = sent w + k
  /\ trace w' = (trace w
       ++ backoff_trace mail attempt (outcomes_from transport mail (sent w) k))%list
  /\ (clock w <= clock w')%Z.

(** The world after a computation, and its value. *)
Definition exec {A} (c : M A) (w : World) : World := snd (c w).
Definition eval {A} (c : M A) (w : World) : Completion A := fst (c w).

(** ** Sample inputs *)

Module Sample.

(** A configured and an unconfigured environment. *)
Definition env_smtp : Env :=
  {| env_SMTP_HOST := Some "smtp.example.com"%string;
     env_SMTP_PORT := Some "587"%string;
     env_SMTP_USER := Some "your_smtp_user"%string;
     env_SMTP_PASS := Some "your_smtp_password"%string;
     env_FROM_EMAIL := Some "no-reply@example.com"%string |}.

Definition env_bare : Env :=
  {| env_SMTP_HOST := None; env_SMTP_PORT := None; env_SMTP_USER := None;
     env_SMTP_PASS := None; env_FROM_EMAIL := None |}.

(** A transport that rejects every call, and one that rejects the first
    call only. *)
Definition refusing : nat -> MailOptions -> Settled :=
  fun _ _ => Rejected "ECONNREFUSED"%string.

Definition flaky : nat -> MailOptions -> Settled :=
  fun n _ => if n <? 1 then Rejected "ETIMEDOUT"%string
             else Resolved "<1@example.com>"%string.

(** The process right after start. *)
Definition boot : World :=
  {| clock := 0; sendAttempts := ∅; FAILED_QUEUE := []; sent := 0; trace := [] |}.

(** A world whose rate limiter is full for the recipient of [bob]. *)
Definition busy : World :=
  {| clock := 5000;
     sendAttempts := {[ "user@example.com"%string := [1000; 2000; 3000]%Z ]};
     FAILED_QUEUE := []; sent := 0; trace := [] |}.

Definition bob : Request :=
  {| req_body := Some {| body_email := Some "user@example.com"%string;
                         body_username := Some "bob"%string;
                         body_code := Some "123456"%string |};
     req_ip := Some "10.0.0.7"%string;
     req_remoteAddress := None |}.

(** Requests that miss something: no code, an empty user name, no body. *)
Definition no_code : Request :=
  {| req_body := Some {| body_email := Some "user@example.com"%string;
                         body_username := Some "bob"%string;
                         body_code := None |};
     req_ip := Some "10.0.0.7"%string;
     req_remoteAddress := None |}.

Definition empty_name : Request :=
  {| req_body := Some {| body_email := Some "user@example.com"%string;
                         body_username := Some ""%string;
                         body_code := Some "123456"%string |};
     req_ip := Some "10.0.0.7"%string;
     req_remoteAddress := None |}.

Definition no_body : Request :=
  {| req_body := None; req_ip := None; req_remoteAddress := None |}.

(** The item the handler queues for [bob], and a world holding just it. *)
Definition item0 : Item :=
  {| email := "user@example.com"; username := "bob"; code := "123456";
     attempts := 0 |}.

Definition queued : World :=
  {| clock := 60000; sendAttempts := ∅; FAILED_QUEUE := [item0]; sent := 0;
     trace := [] |}.

Definition mail0 : MailOptions := worker_mail env_smtp item0.

End Sample.

(** ** Further vocabulary *)

(** The item as a failed cycle puts it back. *)
Definition bump (item : Item) : Item :=
  with_attempts item (attempts item + 1).

(** No list of the rate limiter is longer than [n]. *)
Definition bounded (n : nat) (w : World) : Prop :=
  forall key, length (ledger w key) <= n.

(** [key] is one of the two keys under which the request is rate limited. *)
Definition has_key (key : string) (req : Request) : Prop :=
  recipient_key req = key \/ caller_ip req = key.

(** The time spent in the awaited timers of a trace. *)
Fixpoint waited (evs : list Event) : Z :=
  match evs with
  | [] => 0
  | Sleep ms :: rest => ms + waited rest
  | _ :: rest => waited rest
  end.

(** The messages handed to [sendMail] in a trace. *)
Fixpoint mails (evs : list Event) : list MailOptions :=
  match evs with
  | [] => []
  | SendMail mail _ :: rest => mail :: mails rest
  | _ :: rest => mails rest
  end.

(** ** Further sample inputs *)

Module Sample2.

(** A transport that accepts every call. *)
Definition accepting : nat -> MailOptions -> Settled :=
  fun _ _ => Resolved "<ok@example.com>"%string.

(** Three more recipients behind the address of [Sample.bob]. *)
Definition behind_nat (recipient : string) : Request :=
  {| req_body := Some {| body_email := Some recipient;
                         body_username := Some "user"%string;
                         body_code := Some "000000"%string |};
     req_ip := Some "10.0.0.7"%string;
     req_remoteAddress := None |}.

Definition carol : Request := behind_nat "carol@example.com".
Definition dave : Request := behind_nat "dave@example.com".
Definition erin : Request := behind_nat "erin@example.com".

(** A request whose [email] is the very string that identifies its caller. *)
Definition echo : Request :=
  {| req_body := Some {| body_email := Some "10.0.0.9"%string;
                         body_username := Some "echo"%string;
                         body_code := Some "111111"%string |};
     req_ip := None;
     req_remoteAddress := Some "10.0.0.9"%string |}.

(** A second item, and a world whose queue holds two. *)
Definition item1 : Item :=
  {| email := "carol@example.com"; username := "carol"; code := "654321";
     attempts := 2 |}.

Definition two_queued : World :=
  {| clock := 60000; sendAttempts := ∅;
     FAILED_QUEUE := [Sample.item0; item1]; sent := 0; trace := [] |}.

End Sample2.

Section Properties.

Variable env : Env.
Variable transport : nat -> MailOptions -> Settled.

(** *** The bounded retry sender *)

Lemma sendMail_resolved mail w info :
  transport (sent w) mail = Resolved info ->
  sendMail transport mail w = (Normal info, note_send mail (Resolved info) w).
Proof. intros H. unfold sendMail. rewrite H. reflexivity. Qed.

Lemma sendMail_rejected mail w err :
  transport (sent w) mail = Rejected err ->
  sendMail transport mail w = (Throw err, note_send mail (Rejected err) w).
Proof. intros H. unfold sendMail. rewrite H. reflexivity. Qed.

(** One iteration of the loop whose attempt succeeds. *)
Lemma retrySend_loop_resolved fuel attempt mail w info :
  attempt < RETRY_LIMIT ->
  transport (sent w) mail = Resolved info ->
  retrySend_loop transport (S fuel) attempt mail w
  = (Normal {| res_ok := true; res_info := Some info; res_err := None |},
     note_send mail (Resolved info) w).
Proof.
  intros Hlt H. cbn [retrySend_loop].
  destruct (Nat.ltb_spec attempt RETRY_LIMIT); [|lia].
  unfold try_catch, bind. rewrite (sendMail_resolved _ _ _ H). reflexivity.
Qed.

(** One iteration whose attempt fails with attempts left: wait, go round. *)
Lemma retrySend_loop_retry fuel attempt mail w err :
  attempt + 1 < RETRY_LIMIT ->
  transport (sent w) mail = Rejected err ->
  retrySend_loop transport (S fuel) attempt mail w
  = let d := nth (Nat.min attempt (length delays - 1)) delays 0%Z in
    retrySend_loop transport fuel (attempt + 1) mail
      (emit (Sleep d) (tick d (note_send mail (Rejected err) w))).
Proof.
  intros Hlt H. cbn [retrySend_loop].
  destruct (Nat.ltb_spec attempt RETRY_LIMIT); [|lia].
  unfold try_catch at 1, bind at 1. rewrite (sendMail_rejected _ _ _ H).
  destruct (Nat.leb_spec RETRY_LIMIT (attempt + 1)); [lia|].
  replace (attempt + 1 - 1) with attempt by lia. reflexivity.
Qed.

(** One iteration whose attempt fails and was the last one. *)
Lemma retrySend_loop_exhausted fuel attempt mail w err :
  attempt < RETRY_LIMIT -> RETRY_LIMIT <= attempt + 1 ->
  transport (sent w) mail = Rejected err ->
  retrySend_loop transport (S fuel) attempt mail w
  = (Normal {| res_ok := false; res_info := None; res_err := Some err |},
     note_send mail (Rejected err) w).
Proof.
  intros Hlt Hge H. cbn [retrySend_loop].
  destruct (Nat.ltb_spec attempt RETRY_LIMIT); [|lia].
  unfold try_catch, bind. rewrite (sendMail_rejected _ _ _ H).
  destruct (Nat.leb_spec RETRY_LIMIT (attempt + 1)); [reflexivity|lia].
Qed.

Lemma delay_nonneg attempt :
  (0 <= nth (Nat.min attempt (length delays - 1)) delays 0)%Z.
Proof. destruct attempt as [|[|[|n]]]; cbn; lia. Qed.

Lemma outcomes_from_S mail base n :
  outcomes_from transport mail base (S n)
  = transport base mail :: outcomes_from transport mail (S base) n.
Proof.
  unfold outcomes_from. cbn [seq map]. rewrite Nat.add_0_r. f_equal.
  rewrite <- seq_shift, map_map. apply map_ext. intros j. f_equal. lia.
Qed.

Lemma backoff_trace_cons mail attemptIndex r n base :
  1 <= n ->
  backoff_trace mail attemptIndex (r :: outcomes_from transport mail base n)
  = SendMail mail r
    :: Sleep (nth (Nat.min attemptIndex (length delays - 1)) delays 0%Z)
    :: backoff_trace mail (S attemptIndex) (outcomes_from transport mail base n).
Proof.
  intros Hn. destruct n as [|n]; [lia|]. rewrite outcomes_from_S. reflexivity.
Qed.

(** The loop always comes to an end within [RETRY_LIMIT - attempt]
    iterations: it makes [k >= 1] attempts, all but the last of them failed,
    and it reports what the last one did; a failed last attempt means that
    all attempts are spent. *)
Lemma retrySend_loop_run fuel : forall attempt mail w,
  attempt < RETRY_LIMIT -> RETRY_LIMIT - attempt <= fuel ->
  exists r w' k,
    retrySend_loop transport fuel attempt mail w = (Normal r, w')
    /\ 1 <= k <= RETRY_LIMIT - attempt
    /\ retry_run transport mail attempt w k w'
    /\ (forall j, j < k - 1 -> is_rejected (transport (sent w + j) mail) = true)
    /\ match transport (sent w + (k - 1)) mail with
       | Resolved info =>
         r = {| res_ok := true; res_info := Some info; res_err := None |}
       | Rejected err =>
         r = {| res_ok := false; res_info := None; res_err := Some err |}
         /\ k = RETRY_LIMIT - attempt
       end.
Proof.
  induction fuel as [|fuel IH]; intros attempt mail w Hlt Hfuel; [lia|].
  destruct (transport (sent w) mail) as [info|err] eqn:Hsend.
  - exists {| res_ok := true; res_info := Some info; res_err := None |},
      (note_send mail (Resolved info) w), 1.
    rewrite (retrySend_loop_resolved _ _ _ _ _ Hlt Hsend).
    split; [reflexivity|]. split; [lia|]. split.
    { unfold retry_run. cbn. rewrite Nat.add_0_r, Hsend.
      repeat split; try lia. }
    split; [intros j Hj; lia|].
    cbn. rewrite Nat.add_0_r, Hsend. reflexivity.
  - destruct (Nat.le_gt_cases RETRY_LIMIT (attempt + 1)) as [Hlast|Hmore].
    + exists {| res_ok := false; res_info := None; res_err := Some err |},
        (note_send mail (Rejected err) w), 1.
      rewrite (retrySend_loop_exhausted _ _ _ _ _ Hlt Hlast Hsend).
      split; [reflexivity|]. split; [lia|]. split.
      { unfold retry_run. cbn. rewrite Nat.add_0_r, Hsend.
        repeat split; try lia. }
      split; [intros j Hj; lia|].
      cbn. rewrite Nat.add_0_r, Hsend. split; [reflexivity|unfold RETRY_LIMIT in *; lia].
    + rewrite (retrySend_loop_retry _ _ _ _ _ Hmore Hsend). cbv zeta.
      set (d := nth (Nat.min attempt (length delays - 1)) delays 0%Z).
      set (w1 := emit (Sleep d) (tick d (note_send mail (Rejected err) w))).
      destruct (IH (attempt + 1) mail w1) as (r & w' & k & Hrun & Hk & Hfr & Hrej & Hlastk);
        [lia|lia|].
      exists r, w', (S k). split; [exact Hrun|]. split; [lia|].
      assert (Hs1 : sent w1 = S (sent w)) by reflexivity.
      split.
      { destruct Hfr as (Ha & Hq & Hs & Ht & Hc).
        unfold retry_run. repeat split.
        - rewrite Ha. reflexivity.
        - rewrite Hq. reflexivity.
        - rewrite Hs, Hs1. lia.
        - rewrite Ht, outcomes_from_S, Hsend, Hs1.
          rewrite backoff_trace_cons by lia.
          replace (attempt + 1) with (S attempt) by lia.
          subst w1. cbn [trace emit tick note_send]. fold d.
          rewrite <- !app_assoc. reflexivity.
        - pose proof (delay_nonneg attempt) as Hd. fold d in Hd.
          etransitivity; [|exact Hc]. subst w1. cbn [clock emit tick note_send]. lia. }
      split.
      { intros [|j] Hj.
        - rewrite Nat.add_0_r, Hsend. reflexivity.
        - specialize (Hrej j). rewrite Hs1 in Hrej.
          replace (sent w + S j) with (S (sent w) + j) by lia.
          apply Hrej. lia. }
      rewrite Hs1 in Hlastk.
      replace (sent w + (S k - 1)) with (S (sent w) + (k - 1)) by lia.
      destruct (transport (S (sent w) + (k - 1)) mail); [exact Hlastk|].
      destruct Hlastk as [-> ->]. split; [reflexivity|lia].
Qed.

Lemma retrySend_run mail w :
  exists r w' k,
    retrySend transport mail w = (Normal r, w')
    /\ 1 <= k <= RETRY_LIMIT
    /\ retry_run transport mail 0 w k w'
    /\ (forall j, j < k - 1 -> is_rejected (transport (sent w + j) mail) = true)
    /\ match transport (sent w + (k - 1)) mail with
       | Resolved info =>
         r = {| res_ok := true; res_info := Some info; res_err := None |}
       | Rejected err =>
         r = {| res_ok := false; res_info := None; res_err := Some err |}
         /\ k = RETRY_LIMIT
       end.
Proof.
  destruct (retrySend_loop_run (S RETRY_LIMIT) 0 mail w)
    as (r & w' & k & Hrun & Hk & Hfr & Hrej & Hlast);
    [unfold RETRY_LIMIT; lia | lia |].
  exists r, w', k. rewrite Nat.sub_0_r in Hk, Hlast. auto.
Qed.

(** C3: against a transport that rejects the next [RETRY_LIMIT] calls,
    [retrySend] makes exactly [RETRY_LIMIT] = 3 calls of [sendMail] one after
    the other, waits 1000 ms after the first failure and 3000 ms after the
    second (the entries [delays[min(attemptIndex, delays.length - 1)]] of
    [delays = [1000, 3000, 7000]]), and only then resolves with
    [{ ok: false, err }], [err] being the last rejection.  When the attempt
    number [k] is the first one to succeed, it resolves with [{ ok: true, info }]
    right after that attempt: [k + 1] calls and no more. *)
Theorem retrySend_bounded_backoff mail w :
  ((forall j, j < RETRY_LIMIT -> is_rejected (transport (sent w + j) mail) = true) ->
   exists e0 e1 err,
     eval (retrySend transport mail) w
     = Normal {| res_ok := false; res_info := None; res_err := Some err |}
     /\ sent (exec (retrySend transport mail) w) = sent w + RETRY_LIMIT
     /\ RETRY_LIMIT = 3
     /\ delays = [1000; 3000; 7000]%Z
     /\ trace (exec (retrySend transport mail) w)
        = (trace w ++ [SendMail mail (Rejected e0); Sleep 1000;
                       SendMail mail (Rejected e1); Sleep 3000;
                       SendMail mail (Rejected err)])%list
     /\ trace (exec (retrySend transport mail) w)
        = (trace w ++ backoff_trace mail 0
             (outcomes_from transport mail (sent w) RETRY_LIMIT))%list)
  /\ (forall k info,
        k < RETRY_LIMIT ->
        (forall j, j < k -> is_rejected (transport (sent w + j) mail) = true) ->
        transport (sent w + k) mail = Resolved info ->
        eval (retrySend transport mail) w
        = Normal {| res_ok := true; res_info := Some info; res_err := None |}
        /\ sent (exec (retrySend transport mail) w) = sent w + S k
        /\ trace (exec (retrySend transport mail) w)
           = (trace w ++ backoff_trace mail 0
                (outcomes_from transport mail (sent w) (S k)))%list).
Proof.
  destruct (retrySend_run mail w) as (r & w' & k & Hrun & Hk & Hfr & Hrej & Hlast).
  destruct Hfr as (_ & _ & Hs & Ht & _).
  unfold eval, exec. rewrite Hrun. cbn [fst snd]. split.
  - intros Hall.
    assert (Hk1 : is_rejected (transport (sent w + (k - 1)) mail) = true)
      by (apply Hall; lia).
    destruct (transport (sent w + (k - 1)) mail) as [info|err] eqn:Elast;
      [discriminate|].
    destruct Hlast as [-> ->].
    pose proof (Hall 0 ltac:(unfold RETRY_LIMIT; lia)) as H0.
    pose proof (Hall 1 ltac:(unfold RETRY_LIMIT; lia)) as H1.
    rewrite Ht. unfold outcomes_from. cbn [RETRY_LIMIT seq map].
    cbn [RETRY_LIMIT Nat.sub] in Elast. rewrite Elast.
    destruct (transport (sent w + 0) mail) as [|e0]; [discriminate|].
    destruct (transport (sent w + 1) mail) as [|e1]; [discriminate|].
    exists e0, e1, err. rewrite Hs.
    repeat split; reflexivity.
  - intros k0 info Hk0 Hfirst Hok.
    assert (k = S k0) as ->.
    { destruct (Nat.lt_trichotomy (k - 1) k0) as [Hlt|[Heq|Hgt]]; [| lia |].
      - specialize (Hfirst _ Hlt).
        destruct (transport (sent w + (k - 1)) mail); [discriminate|].
        destruct Hlast as [_ ->]. lia.
      - specialize (Hrej _ Hgt). rewrite Hok in Hrej. discriminate. }
    replace (S k0 - 1) with k0 in Hlast by lia. rewrite Hok in Hlast.
    subst r. auto.
Qed.

(** *** The rate limiter *)

Lemma cleanupAttempts_eq key w :
  cleanupAttempts key w = (Normal (live w key), purge key w).
Proof. reflexivity. Qed.

Lemma canSend_eq key w :
  canSend key w = (Normal (length (live w key) <? MAX_ATTEMPTS), purge key w).
Proof. reflexivity. Qed.

Lemma recordAttempt_eq key w :
  recordAttempt key w = (Normal tt, record key w).
Proof. reflexivity. Qed.

Lemma ledger_purge key key' w :
  ledger (purge key w) key' = if decide (key = key') then live w key else ledger w key'.
Proof.
  unfold ledger, purge. cbn [sendAttempts set_sendAttempts].
  rewrite lookup_insert. destruct (decide (key = key')); reflexivity.
Qed.

Lemma live_idemp (now : Z) (arr : list Z) :
  filter (fun t => (now - t < WINDOW_MS)%Z) (filter (fun t => (now - t < WINDOW_MS)%Z) arr)
  = filter (fun t => (now - t < WINDOW_MS)%Z) arr.
Proof.
  induction arr as [|t arr IH]; [reflexivity|].
  rewrite (filter_cons _ t arr). destruct (decide (now - t < WINDOW_MS)%Z) as [H|H].
  - rewrite filter_cons. destruct (decide (now - t < WINDOW_MS)%Z); [|contradiction].
    f_equal. exact IH.
  - exact IH.
Qed.

Lemma live_purge key key' w : live (purge key w) key' = live w key'.
Proof.
  unfold live at 1. rewrite ledger_purge.
  change (clock (purge key w)) with (clock w).
  destruct (decide (key = key')) as [<-|]; [|reflexivity].
  apply live_idemp.
Qed.

Lemma ledger_record key key' w :
  ledger (record key w) key'
  = if decide (key = key') then (live w key ++ [clock w])%list else ledger w key'.
Proof.
  unfold ledger, record. cbn [sendAttempts set_sendAttempts emit purge].
  rewrite lookup_insert. destruct (decide (key = key')) as [|Hne]; [reflexivity|].
  rewrite lookup_insert_ne by exact Hne. reflexivity.
Qed.


(** *** The handler, branch by branch *)

Lemma truthy_Some s : s <> ""%string -> truthy (Some s) = true.
Proof. intros H. cbn. apply negb_true_iff, String.eqb_neq, H. Qed.

Lemma truthy_missing v : missing_or_empty v -> truthy v = false.
Proof. intros [->| ->]; reflexivity. Qed.

Lemma send_code_missing req w :
  missing_or_empty (recipient req) \/ missing_or_empty (displayName req)
    \/ missing_or_empty (code_of req) ->
  send_code env transport req w = (Normal missing_response, w).
Proof.
  unfold recipient, displayName, code_of, send_code.
  destruct (fields req) as [[e u] c]. cbn [fst snd].
  intros [H|[H|H]]; apply truthy_missing in H; rewrite H;
    cbn [negb orb]; rewrite ?orb_true_r; reflexivity.
Qed.

Lemma send_code_simulated req w :
  valid req -> SMTP_CONFIGURED env = false ->
  send_code env transport req w
  = (Normal simulated_response, emit (ConsoleLog "[SIMULATION] send-code") w).
Proof.
  intros (e & u & c & Hf & He & Hu & Hc) Hsim. unfold send_code.
  rewrite Hf, (truthy_Some _ He), (truthy_Some _ Hu), (truthy_Some _ Hc), Hsim.
  reflexivity.
Qed.

Lemma send_code_configured req w :
  valid req -> SMTP_CONFIGURED env = true ->
  send_code env transport req w
  = let e := recipient_key req in
    let ip := caller_ip req in
    if length (live w e) <? MAX_ATTEMPTS then
      if length (live w ip) <? MAX_ATTEMPTS then
        deliver_or_queue (retrySend transport (mail_of env req))
          e (default ""%string (displayName req)) (default ""%string (code_of req))
          (record ip (record e (purge ip (purge e w))))
      else (Normal throttled_response, purge ip (purge e w))
    else (Normal throttled_response, purge e w).
Proof.
  intros (e & u & c & Hf & He & Hu & Hc) Hconf.
  unfold send_code, mail_of, recipient_key, recipient, displayName, code_of.
  rewrite Hf, (truthy_Some _ He), (truthy_Some _ Hu), (truthy_Some _ Hc), Hconf.
  cbn [negb orb fst snd default from_option id]. cbv zeta.
  unfold bind at 1. rewrite canSend_eq.
  destruct (length (live w e) <? MAX_ATTEMPTS) eqn:E1; cbn [negb]; [|reflexivity].
  unfold bind at 1. unfold bind at 1. rewrite canSend_eq, live_purge.
  destruct (length (live w (caller_ip req)) <? MAX_ATTEMPTS) eqn:E2; reflexivity.
Qed.

(** *** Validation *)

(** C6: a request in which [email], [username] or [code] is missing or the
    empty string (a missing body leaves all three missing) is answered with
    status 400 and [{ ok: false, message: 'Missing email, username or code' }],
    whatever the configuration, and the world is left exactly as it was: no
    rate-limit lookup or purge, no recorded attempt, no [sendMail] call, no
    queue access, no console output. *)
Theorem missing_field_rejected req w :
  missing_or_empty (recipient req) \/ missing_or_empty (displayName req)
    \/ missing_or_empty (code_of req) ->
  eval (send_code env transport req) w = Normal missing_response
  /\ status missing_response = 400
  /\ ok missing_response = false
  /\ exec (send_code env transport req) w = w.
Proof.
  intros H. unfold eval, exec. rewrite (send_code_missing req w H).
  repeat split.
Qed.

(** C10: the validation comes before the simulation-mode check: with the
    transport unconfigured, a request with a missing or empty field is still
    answered with status 400, not with [{ ok: true, simulated: true }], and
    nothing is logged. *)
Theorem validation_precedes_simulation req w :
  SMTP_CONFIGURED env = false ->
  missing_or_empty (recipient req) \/ missing_or_empty (displayName req)
    \/ missing_or_empty (code_of req) ->
  eval (send_code env transport req) w = Normal missing_response
  /\ eval (send_code env transport req) w <> Normal simulated_response
  /\ simulated missing_response = None
  /\ trace (exec (send_code env transport req) w) = trace w.
Proof.
  intros _ H. unfold eval, exec. rewrite (send_code_missing req w H).
  cbn [fst snd]. repeat split. discriminate.
Qed.

(** *** Simulation mode *)

Lemma worker_simulated w :
  SMTP_CONFIGURED env = false -> worker env transport w = (Normal tt, w).
Proof. intros H. unfold worker. rewrite H. reflexivity. Qed.

(** C9: with the transport unconfigured, every valid request is answered with
    [{ ok: true, simulated: true }] (status 200) in every world, whatever the
    rate limiter holds for its keys; the handler neither reads nor writes
    [FAILED_QUEUE] (its answer is the same under any queue [q], and it leaves
    that queue in place); and a run of the worker changes nothing at all. *)
Theorem simulation_mode_frame req w :
  SMTP_CONFIGURED env = false ->
  valid req ->
  eval (send_code env transport req) w = Normal simulated_response
  /\ status simulated_response = 200
  /\ simulated simulated_response = Some true
  /\ FAILED_QUEUE (exec (send_code env transport req) w) = FAILED_QUEUE w
  /\ (forall q,
       eval (send_code env transport req) (set_FAILED_QUEUE q w)
       = Normal simulated_response
       /\ exec (send_code env transport req) (set_FAILED_QUEUE q w)
          = set_FAILED_QUEUE q (exec (send_code env transport req) w))
  /\ worker env transport w = (Normal tt, w).
Proof.
  intros Hsim Hvalid. unfold eval, exec.
  rewrite (send_code_simulated req w Hvalid Hsim).
  repeat split; try reflexivity.
  - rewrite (send_code_simulated req _ Hvalid Hsim). reflexivity.
  - rewrite (send_code_simulated req _ Hvalid Hsim). reflexivity.
  - apply worker_simulated, Hsim.
Qed.

(** C2 (as amended): with the transport unconfigured, every valid request is
    answered with [{ ok: true, simulated: true }]; the handler skips the rate
    limiter, the recording and the sending: [sendAttempts] is left as it was,
    no [sendMail] call is made, and the only trace of the request is the
    console line [[SIMULATION] send-code]. *)
Theorem simulation_logs_only req w :
  SMTP_CONFIGURED env = false ->
  valid req ->
  eval (send_code env transport req) w = Normal simulated_response
  /\ sendAttempts (exec (send_code env transport req) w) = sendAttempts w
  /\ sent (exec (send_code env transport req) w) = sent w
  /\ clock (exec (send_code env transport req) w) = clock w
  /\ trace (exec (send_code env transport req) w)
     = (trace w ++ [ConsoleLog "[SIMULATION] send-code"])%list.
Proof.
  intros Hsim Hvalid. unfold eval, exec.
  rewrite (send_code_simulated req w Hvalid Hsim).
  repeat split.
Qed.

(** *** The admitted request *)

Lemma deliver_or_queue_eq (send : M SendResult) e u c w :
  deliver_or_queue send e u c w
  = let item := {| email := e; username := u; code := c; attempts := 0 |} in
    match send w with
    | (Normal r, w1) =>
      if res_ok r then
        (Normal delivered_response, emit (ConsoleLog "Email sent:") w1)
      else
        (Normal queued_response,
         set_FAILED_QUEUE (FAILED_QUEUE w1 ++ [item])
           (emit (ConsoleError "Send failed, queuing for retry") w1))
    | (Throw err, w1) =>
      (Normal queued_response,
       set_FAILED_QUEUE (FAILED_QUEUE w1 ++ [item])
         (emit (ConsoleError "Error sending email") w1))
    | (OutOfFuel, w1) => (OutOfFuel, w1)
    end.
Proof.
  unfold deliver_or_queue, try_catch, bind.
  destruct (send w) as [[r|err|] w1]; [destruct (res_ok r)|..]; reflexivity.
Qed.

(** The world in which the sender of an admitted request starts. *)
Lemma send_code_passed req w :
  valid req -> SMTP_CONFIGURED env = true -> within_limit w req ->
  send_code env transport req w
  = deliver_or_queue (retrySend transport (mail_of env req))
      (recipient_key req) (default ""%string (displayName req))
      (default ""%string (code_of req))
      (record (caller_ip req) (record (recipient_key req)
         (purge (caller_ip req) (purge (recipient_key req) w)))).
Proof.
  intros Hv Hc [He Hi]. rewrite (send_code_configured req w Hv Hc). cbv zeta.
  apply Nat.ltb_lt in He, Hi. rewrite He, Hi. reflexivity.
Qed.

Lemma send_code_throttled req w :
  valid req -> SMTP_CONFIGURED env = true -> ~ within_limit w req ->
  eval (send_code env transport req) w = Normal throttled_response
  /\ (exec (send_code env transport req) w = purge (recipient_key req) w
      \/ exec (send_code env transport req) w
         = purge (caller_ip req) (purge (recipient_key req) w)).
Proof.
  intros Hv Hc Hlim. unfold eval, exec, within_limit in *.
  rewrite (send_code_configured req w Hv Hc). cbv zeta.
  destruct (Nat.ltb_spec (length (live w (recipient_key req))) MAX_ATTEMPTS);
    [|auto].
  destruct (Nat.ltb_spec (length (live w (caller_ip req))) MAX_ATTEMPTS);
    [lia|auto].
Qed.

(** C7: for an admitted request (valid, transport configured, both keys
    within the limit) the handler always completes normally: no rejection of
    [sendMail] reaches the caller.  If one of the [RETRY_LIMIT] attempts
    resolves, the answer is [{ ok: true }] with status 200 and the queue is as
    it was; if all of them are rejected, one item with [attempts: 0] is pushed
    at the tail of [FAILED_QUEUE] and the answer is status 202,
    [{ ok: false, message: 'Queued for retry' }].  The same push and answer
    follow should the awaited sender itself throw. *)
Theorem transport_errors_never_propagate req w :
  valid req -> SMTP_CONFIGURED env = true -> within_limit w req ->
  ((exists k info,
      k < RETRY_LIMIT
      /\ (forall j, j < k ->
            is_rejected (transport (sent w + j) (mail_of env req)) = true)
      /\ transport (sent w + k) (mail_of env req) = Resolved info
      /\ eval (send_code env transport req) w = Normal delivered_response
      /\ FAILED_QUEUE (exec (send_code env transport req) w) = FAILED_QUEUE w)
   \/ ((forall j, j < RETRY_LIMIT ->
          is_rejected (transport (sent w + j) (mail_of env req)) = true)
       /\ eval (send_code env transport req) w = Normal queued_response
       /\ FAILED_QUEUE (exec (send_code env transport req) w)
          = (FAILED_QUEUE w ++ [item_of req])%list))
  /\ status delivered_response = 200
  /\ status queued_response = 202
  /\ attempts (item_of req) = 0
  /\ (forall (send : M SendResult) e u c w1 err,
        eval send w1 = Throw err ->
        eval (deliver_or_queue send e u c) w1 = Normal queued_response
        /\ FAILED_QUEUE (exec (deliver_or_queue send e u c) w1)
           = (FAILED_QUEUE (exec send w1)
              ++ [{| email := e; username := u; code := c; attempts := 0 |}])%list).
Proof.
  intros Hv Hc Hlim.
  split; [|split; [reflexivity|split; [reflexivity|split; [reflexivity|]]]].
  - unfold eval, exec. rewrite (send_code_passed req w Hv Hc Hlim).
    set (w3 := record _ _). rewrite deliver_or_queue_eq. cbv zeta.
    destruct (retrySend_run (mail_of env req) w3)
      as (r & w' & k & Hrun & Hk & Hfr & Hrej & Hlast).
    destruct Hfr as (_ & Hq & _). rewrite Hrun.
    change (sent w3) with (sent w) in Hrej, Hlast.
    change (FAILED_QUEUE w3) with (FAILED_QUEUE w) in Hq.
    destruct (transport (sent w + (k - 1)) (mail_of env req)) as [info|err] eqn:E.
    + left. exists (k - 1), info. subst r. cbn.
      repeat split; [lia | exact Hrej | exact E | exact Hq].
    + right. destruct Hlast as [-> ->]. cbn [res_ok fst snd]. repeat split.
      * intros j Hj. destruct (decide (j = RETRY_LIMIT - 1)) as [->|Hne].
        { rewrite E. reflexivity. }
        apply Hrej. lia.
      * cbn. rewrite Hq. reflexivity.
  - intros send e u c w1 err Hthrow. unfold eval, exec in *.
    rewrite deliver_or_queue_eq. cbv zeta.
    destruct (send w1) as [[r|err'|] w2]; cbn in Hthrow; try discriminate.
    split; reflexivity.
Qed.

Lemma valid_or_missing req :
  valid req
  \/ (missing_or_empty (recipient req) \/ missing_or_empty (displayName req)
      \/ missing_or_empty (code_of req)).
Proof.
  unfold valid, recipient, displayName, code_of, missing_or_empty.
  destruct (fields req) as [[[e|] [u|]] [c|]]; cbn [fst snd]; auto.
  destruct (decide (e = ""%string)) as [->|He]; [auto|].
  destruct (decide (u = ""%string)) as [->|Hu]; [auto|].
  destruct (decide (c = ""%string)) as [->|Hc]; [auto 6|].
  left. exists e, u, c. auto.
Qed.

Lemma within_limit_dec w req : {within_limit w req} + {~ within_limit w req}.
Proof.
  unfold within_limit.
  destruct (lt_dec (length (live w (recipient_key req))) MAX_ATTEMPTS);
    destruct (lt_dec (length (live w (caller_ip req))) MAX_ATTEMPTS);
    (left; split; assumption) || (right; intros [? ?]; contradiction).
Qed.

(** The answer and the final world of an admitted request, from the run of
    the sender. *)
Lemma send_code_passed_run req w :
  valid req -> SMTP_CONFIGURED env = true -> within_limit w req ->
  let w3 := record (caller_ip req) (record (recipient_key req)
              (purge (caller_ip req) (purge (recipient_key req) w))) in
  exists r w' k,
    retrySend transport (mail_of env req) w3 = (Normal r, w')
    /\ 1 <= k <= RETRY_LIMIT
    /\ retry_run transport (mail_of env req) 0 w3 k w'
    /\ send_code env transport req w
       = if res_ok r then
           (Normal delivered_response, emit (ConsoleLog "Email sent:") w')
         else
           (Normal queued_response,
            set_FAILED_QUEUE (FAILED_QUEUE w' ++ [item_of req])
              (emit (ConsoleError "Send failed, queuing for retry") w')).
Proof.
  intros Hv Hc Hlim w3.
  destruct (retrySend_run (mail_of env req) w3)
    as (r & w' & k & Hrun & Hk & Hfr & _ & _).
  exists r, w', k.
  split; [exact Hrun|]. split; [exact Hk|]. split; [exact Hfr|].
  rewrite (send_code_passed req w Hv Hc Hlim), deliver_or_queue_eq.
  fold w3. rewrite Hrun. reflexivity.
Qed.

(** C8: with the transport configured, an admitted request pushes the current
    time on the list of the recipient key and then on the list of the caller
    key before the first [sendMail] call of the retry sender, and both entries
    are in place at the end whatever the sender achieved.  A request answered
    with status 400 or 429 pushes nothing: its trace is empty, and each list
    is as it was or purged of its expired entries. *)
Theorem recorded_at_admission req w :
  SMTP_CONFIGURED env = true ->
  (valid req -> within_limit w req ->
   exists k final,
     1 <= k <= RETRY_LIMIT
     /\ trace (exec (send_code env transport req) w)
        = (trace w
           ++ [Recorded (recipient_key req) (clock w);
               Recorded (caller_ip req) (clock w)]
           ++ backoff_trace (mail_of env req) 0
                (outcomes_from transport (mail_of env req) (sent w) k)
           ++ [final])%list
     /\ (final = ConsoleLog "Email sent:"
         \/ final = ConsoleError "Send failed, queuing for retry")
     /\ clock w ∈ ledger (exec (send_code env transport req) w) (recipient_key req)
     /\ clock w ∈ ledger (exec (send_code env transport req) w) (caller_ip req))
  /\ (forall resp,
        eval (send_code env transport req) w = Normal resp ->
        status resp = 400 \/ status resp = 429 ->
        trace (exec (send_code env transport req) w) = trace w
        /\ forall key,
             ledger (exec (send_code env transport req) w) key = ledger w key
             \/ ledger (exec (send_code env transport req) w) key = live w key).
Proof.
  intros Hc. split.
  - intros Hv Hlim.
    destruct (send_code_passed_run req w Hv Hc Hlim)
      as (r & w' & k & Hrun & Hk & Hfr & Hsc).
    destruct Hfr as (Ha & _ & _ & Ht & _).
    set (e := recipient_key req) in *. set (ip := caller_ip req) in *.
    set (w3 := record ip (record e (purge ip (purge e w)))) in *.
    assert (Hled : forall key,
      ledger (exec (send_code env transport req) w) key = ledger w3 key).
    { intros key. unfold exec, ledger. rewrite Hsc.
      destruct (res_ok r); cbn; rewrite Ha; reflexivity. }
    exists k, (if res_ok r then ConsoleLog "Email sent:"
               else ConsoleError "Send failed, queuing for retry").
    split; [exact Hk|]. split; [|split; [destruct (res_ok r); auto|]].
    + unfold exec. rewrite Hsc.
      destruct (res_ok r); cbn [snd trace emit set_FAILED_QUEUE];
        rewrite Ht; change (sent w3) with (sent w);
        change (trace w3)
          with ((trace w ++ [Recorded e (clock w)]) ++ [Recorded ip (clock w)])%list;
        rewrite <- !app_assoc; reflexivity.
    + rewrite !Hled. subst w3. rewrite !ledger_record.
      rewrite (decide_True (P := ip = ip)) by reflexivity.
      rewrite (decide_True (P := e = e)) by reflexivity.
      cbn [clock record purge emit set_sendAttempts].
      split; [destruct (decide (ip = e))|];
        apply elem_of_app; right; apply list_elem_of_singleton; reflexivity.
  - intros resp Hresp Hst. destruct (valid_or_missing req) as [Hv|Hm].
    + destruct (within_limit_dec w req) as [Hlim|Hlim].
      * exfalso.
        destruct (send_code_passed_run req w Hv Hc Hlim)
          as (r & w' & k & _ & _ & _ & Hsc).
        unfold eval in Hresp. rewrite Hsc in Hresp.
        destruct (res_ok r); cbn in Hresp; inversion Hresp; subst resp;
          cbn in Hst; destruct Hst; discriminate.
      * destruct (send_code_throttled req w Hv Hc Hlim) as [_ [-> | ->]].
        { split; [reflexivity|]. intros key. rewrite ledger_purge.
          destruct (decide (recipient_key req = key)) as [->|]; auto. }
        { split; [reflexivity|]. intros key. rewrite !ledger_purge, live_purge.
          destruct (decide (caller_ip req = key)) as [->|]; [auto|].
          destruct (decide (recipient_key req = key)) as [->|]; auto. }
    + unfold exec. rewrite (send_code_missing req w Hm). cbn [snd]. auto.
Qed.

(** *** The background worker *)

Lemma worker_empty w :
  FAILED_QUEUE w = [] -> worker env transport w = (Normal tt, w).
Proof.
  intros Hq. unfold worker. destruct (SMTP_CONFIGURED env); [|reflexivity].
  cbn [negb]. unfold bind, gets. rewrite Hq. reflexivity.
Qed.

Lemma worker_drop w item rest :
  SMTP_CONFIGURED env = true -> FAILED_QUEUE w = item :: rest ->
  RETRY_LIMIT <= attempts item ->
  worker env transport w
  = (Normal tt,
     emit (ConsoleError "Dropping failed send after retries for")
       (set_FAILED_QUEUE rest w)).
Proof.
  intros Hc Hq Ha. unfold worker. rewrite Hc. cbn [negb].
  unfold bind at 1, gets. rewrite Hq. cbn [length Nat.eqb].
  unfold bind, shift. rewrite Hq.
  destruct (Nat.leb_spec RETRY_LIMIT (attempts item)); [reflexivity|lia].
Qed.

Lemma worker_retry w item rest :
  SMTP_CONFIGURED env = true -> FAILED_QUEUE w = item :: rest ->
  attempts item < RETRY_LIMIT ->
  worker env transport w
  = let again := with_attempts item (attempts item + 1) in
    match retrySend transport (worker_mail env item) (set_FAILED_QUEUE rest w) with
    | (Normal res, w1) =>
      if res_ok res then (Normal tt, w1)
      else (Normal tt, set_FAILED_QUEUE (FAILED_QUEUE w1 ++ [again]) w1)
    | (Throw e, w1) =>
      (Normal tt, set_FAILED_QUEUE (FAILED_QUEUE w1 ++ [again]) w1)
    | (OutOfFuel, w1) => (OutOfFuel, w1)
    end.
Proof.
  intros Hc Hq Ha. unfold worker. rewrite Hc. cbn [negb].
  unfold bind at 1, gets. rewrite Hq. cbn [length Nat.eqb].
  unfold bind at 1, shift. rewrite Hq.
  destruct (Nat.leb_spec RETRY_LIMIT (attempts item)); [lia|].
  unfold try_catch, bind.
  destruct (retrySend transport (worker_mail env item) (set_FAILED_QUEUE rest w))
    as [[res|e|] w1]; [destruct (res_ok res)|..]; reflexivity.
Qed.

(** The run of the sender inside a worker cycle. *)
Lemma worker_retry_run w item rest :
  SMTP_CONFIGURED env = true -> FAILED_QUEUE w = item :: rest ->
  attempts item < RETRY_LIMIT ->
  exists r w' k,
    retrySend transport (worker_mail env item) (set_FAILED_QUEUE rest w)
    = (Normal r, w')
    /\ 1 <= k <= RETRY_LIMIT
    /\ retry_run transport (worker_mail env item) 0 (set_FAILED_QUEUE rest w) k w'
    /\ (forall j, j < k - 1 ->
          is_rejected (transport (sent w + j) (worker_mail env item)) = true)
    /\ match transport (sent w + (k - 1)) (worker_mail env item) with
       | Resolved info =>
         r = {| res_ok := true; res_info := Some info; res_err := None |}
       | Rejected err =>
         r = {| res_ok := false; res_info := None; res_err := Some err |}
         /\ k = RETRY_LIMIT
       end
    /\ worker env transport w
       = if res_ok r then (Normal tt, w')
         else (Normal tt,
               set_FAILED_QUEUE
                 (FAILED_QUEUE w' ++ [with_attempts item (attempts item + 1)]) w').
Proof.
  intros Hc Hq Ha.
  destruct (retrySend_run (worker_mail env item) (set_FAILED_QUEUE rest w))
    as (r & w' & k & Hrun & Hk & Hfr & Hrej & Hlast).
  exists r, w', k. do 5 (split; [assumption|]).
  rewrite (worker_retry w item rest Hc Hq Ha). cbv zeta. rewrite Hrun. reflexivity.
Qed.

(** C1 (as amended): a cycle that takes an item with [attempts < RETRY_LIMIT]
    from the queue hands its message to [retrySend], the bounded retry sender:
    it makes [k] calls of [sendMail] with [1 <= k <= RETRY_LIMIT], separated by
    the backoff waits, and stops before [RETRY_LIMIT] calls only when a call
    resolved.  So it makes exactly one call when the first call resolves, and
    [RETRY_LIMIT] calls when every call is rejected. *)
Theorem worker_uses_bounded_retry w item rest :
  SMTP_CONFIGURED env = true -> FAILED_QUEUE w = item :: rest ->
  attempts item < RETRY_LIMIT ->
  exists k,
    1 <= k <= RETRY_LIMIT
    /\ sent (exec (worker env transport) w) = sent w + k
    /\ trace (exec (worker env transport) w)
       = (trace w ++ backoff_trace (worker_mail env item) 0
            (outcomes_from transport (worker_mail env item) (sent w) k))%list
    /\ trace (exec (worker env transport) w)
       = trace (exec (retrySend transport (worker_mail env item))
                  (set_FAILED_QUEUE rest w))
    /\ (forall j, j < k - 1 ->
          is_rejected (transport (sent w + j) (worker_mail env item)) = true)
    /\ (k < RETRY_LIMIT ->
          is_rejected (transport (sent w + (k - 1)) (worker_mail env item)) = false)
    /\ (is_rejected (transport (sent w) (worker_mail env item)) = false -> k = 1)
    /\ ((forall j, j < RETRY_LIMIT ->
           is_rejected (transport (sent w + j) (worker_mail env item)) = true) ->
        k = RETRY_LIMIT).
Proof.
  intros Hc Hq Ha.
  destruct (worker_retry_run w item rest Hc Hq Ha)
    as (r & w' & k & Hrun & Hk & Hfr & Hrej & Hlast & Hw).
  destruct Hfr as (_ & _ & Hs & Ht & _).
  change (sent (set_FAILED_QUEUE rest w)) with (sent w) in Hs, Ht.
  change (trace (set_FAILED_QUEUE rest w)) with (trace w) in Ht.
  exists k. unfold exec. rewrite Hw, Hrun. split; [exact Hk|].
  split; [destruct (res_ok r); exact Hs|].
  split; [destruct (res_ok r); exact Ht|].
  split; [destruct (res_ok r); reflexivity|].
  split; [exact Hrej|].
  split; [|split].
  - intros Hlt.
    destruct (transport (sent w + (k - 1)) (worker_mail env item));
      [reflexivity|]. destruct Hlast as [_ ->]. lia.
  - intros H0. destruct (decide (k = 1)) as [|Hne]; [assumption|].
    specialize (Hrej 0 ltac:(lia)). rewrite Nat.add_0_r, H0 in Hrej. discriminate.
  - intros Hall. specialize (Hall (k - 1) ltac:(lia)).
    destruct (transport (sent w + (k - 1)) (worker_mail env item));
      [discriminate|]. apply Hlast.
Qed.

Lemma cycles_add n m w :
  cycles env transport (n + m) w = cycles env transport m (cycles env transport n w).
Proof.
  revert w. induction n as [|n IH]; intros w; [reflexivity|].
  cbn [Nat.add cycles]. apply IH.
Qed.

Lemma cycles_empty n w :
  FAILED_QUEUE w = [] -> cycles env transport n w = w.
Proof.
  intros Hq. induction n as [|n IH]; [reflexivity|].
  cbn [cycles]. rewrite (worker_empty w Hq). exact IH.
Qed.

Section AlwaysFailing.

Hypothesis configured : SMTP_CONFIGURED env = true.
Hypothesis always_fails : forall n mail, is_rejected (transport n mail) = true.

(** A failed cycle: the item goes back to the tail, one attempt older. *)
Lemma worker_failed_cycle w item rest :
  FAILED_QUEUE w = item :: rest -> attempts item < RETRY_LIMIT ->
  FAILED_QUEUE (exec (worker env transport) w)
  = (rest ++ [with_attempts item (attempts item + 1)])%list.
Proof using configured always_fails.
  intros Hq Ha.
  destruct (worker_retry_run w item rest configured Hq Ha)
    as (r & w' & k & _ & _ & Hfr & _ & Hlast & Hw).
  destruct Hfr as (_ & Hq' & _).
  pose proof (always_fails (sent w + (k - 1)) (worker_mail env item)) as Hrej.
  destruct (transport (sent w + (k - 1)) (worker_mail env item));
    [discriminate|].
  destruct Hlast as [-> _]. unfold exec. rewrite Hw. cbn. rewrite Hq'. reflexivity.
Qed.

(** A lone item survives as many failed cycles as its count leaves room for. *)
Lemma cycles_failing n : forall w item,
  FAILED_QUEUE w = [item] -> attempts item + n <= RETRY_LIMIT ->
  FAILED_QUEUE (cycles env transport n w) = [with_attempts item (attempts item + n)].
Proof using configured always_fails.
  induction n as [|n IH]; intros w item Hq Ha.
  - cbn [cycles]. rewrite Hq, Nat.add_0_r. destruct item; reflexivity.
  - cbn [cycles]. fold (exec (worker env transport) w).
    pose proof (worker_failed_cycle w item [] Hq ltac:(lia)) as Hstep.
    cbn [app] in Hstep.
    rewrite (IH _ _ Hstep) by (cbn [attempts with_attempts]; lia).
    unfold with_attempts. cbn [email username code attempts].
    do 2 f_equal. lia.
Qed.

End AlwaysFailing.

(** C4 (as amended): against a transport that rejects every call, a cycle
    that takes an item with [attempts < RETRY_LIMIT] puts it back at the tail
    of the queue with [attempts + 1], and a cycle that takes an item with
    [attempts >= RETRY_LIMIT] removes it without a [sendMail] call.  So an
    item queued alone with [attempts: 0] has [attempts = n] after [n <= 3]
    cycles: its third failed cycle still puts it back, with [attempts = 3].
    It is the fourth cycle that removes it, and from then on the cycles
    change nothing. *)
Theorem queue_lifecycle :
  SMTP_CONFIGURED env = true ->
  (forall n mail, is_rejected (transport n mail) = true) ->
  (forall w item rest,
     FAILED_QUEUE w = item :: rest ->
     (attempts item < RETRY_LIMIT ->
      FAILED_QUEUE (exec (worker env transport) w)
      = (rest ++ [with_attempts item (attempts item + 1)])%list)
     /\ (RETRY_LIMIT <= attempts item ->
         FAILED_QUEUE (exec (worker env transport) w) = rest
         /\ sent (exec (worker env transport) w) = sent w))
  /\ (forall w item,
        FAILED_QUEUE w = [item] -> attempts item = 0 ->
        (forall n, n <= RETRY_LIMIT ->
           FAILED_QUEUE (cycles env transport n w) = [with_attempts item n])
        /\ FAILED_QUEUE (cycles env transport (S RETRY_LIMIT) w) = []
        /\ sent (cycles env transport (S RETRY_LIMIT) w)
           = sent (cycles env transport RETRY_LIMIT w)
        /\ forall n,
             cycles env transport (S RETRY_LIMIT + n) w
             = cycles env transport (S RETRY_LIMIT) w).
Proof.
  intros Hc Hfail. split.
  - intros w item rest Hq. split.
    + apply worker_failed_cycle; assumption.
    + intros Ha. unfold exec. rewrite (worker_drop w item rest Hc Hq Ha).
      split; reflexivity.
  - intros w item Hq H0.
    assert (Hn : forall n, n <= RETRY_LIMIT ->
      FAILED_QUEUE (cycles env transport n w) = [with_attempts item n]).
    { intros n Hn. rewrite (cycles_failing Hc Hfail n w item Hq) by lia.
      rewrite H0. reflexivity. }
    assert (Hlast : cycles env transport (S RETRY_LIMIT) w
      = emit (ConsoleError "Dropping failed send after retries for")
          (set_FAILED_QUEUE [] (cycles env transport RETRY_LIMIT w))).
    { replace (S RETRY_LIMIT) with (RETRY_LIMIT + 1) by lia.
      rewrite cycles_add. cbn [cycles].
      rewrite (worker_drop _ _ [] Hc (Hn RETRY_LIMIT (le_n _)));
        [reflexivity|cbn; lia]. }
    split; [exact Hn|]. split; [rewrite Hlast; reflexivity|].
    split; [rewrite Hlast; reflexivity|].
    intros n. rewrite cycles_add. apply cycles_empty. rewrite Hlast. reflexivity.
Qed.

(** *** The window *)

Lemma filter_all_live (now : Z) (arr : list Z) :
  (forall t, t ∈ arr -> (now - t < WINDOW_MS)%Z) ->
  filter (fun t => (now - t < WINDOW_MS)%Z) arr = arr.
Proof.
  induction arr as [|t arr IH]; intros Hall; [reflexivity|].
  rewrite filter_cons. destruct (decide (now - t < WINDOW_MS)%Z) as [_|Hn].
  - f_equal. apply IH. intros t' Ht'. apply Hall. right. exact Ht'.
  - exfalso. apply Hn, Hall. left.
Qed.

Lemma filter_none_live (now : Z) (arr : list Z) :
  (forall t, t ∈ arr -> (WINDOW_MS <= now - t)%Z) ->
  filter (fun t => (now - t < WINDOW_MS)%Z) arr = [].
Proof.
  induction arr as [|t arr IH]; intros Hall; [reflexivity|].
  rewrite filter_cons. destruct (decide (now - t < WINDOW_MS)%Z) as [Hl|_].
  - specialize (Hall t ltac:(left)). lia.
  - apply IH. intros t' Ht'. apply Hall. right. exact Ht'.
Qed.

Lemma live_all_live w key : all_live w -> live w key = ledger w key.
Proof. intros H. apply filter_all_live. intros t. apply H. Qed.

Lemma ledger_purge_all_live w key key' :
  all_live w -> ledger (purge key w) key' = ledger w key'.
Proof.
  intros H. rewrite ledger_purge. destruct (decide (key = key')) as [->|];
    [apply live_all_live, H|reflexivity].
Qed.

Lemma all_live_purge w key : all_live w -> all_live (purge key w).
Proof.
  intros H key' t. rewrite (ledger_purge_all_live _ _ _ H). apply H.
Qed.

Lemma ledger_record_all_live w key key' :
  all_live w ->
  ledger (record key w) key'
  = (ledger w key' ++ if decide (key = key') then [clock w] else [])%list.
Proof.
  intros H. rewrite ledger_record.
  destruct (decide (key = key')) as [->|]; [|rewrite app_nil_r; reflexivity].
  rewrite (live_all_live _ _ H). reflexivity.
Qed.

Lemma all_live_record w key : all_live w -> all_live (record key w).
Proof.
  intros H key' t. rewrite (ledger_record_all_live _ _ _ H).
  change (clock (record key w)) with (clock w).
  rewrite elem_of_app. intros [Ht|Ht]; [apply (H _ _ Ht)|].
  destruct (decide (key = key')); [|inversion Ht].
  apply list_elem_of_singleton in Ht as ->. unfold WINDOW_MS. lia.
Qed.

(** What a valid request does to the lists when nothing in them has expired:
    an admitted request appends the current time under its two keys, a
    throttled one changes nothing. *)
Lemma send_code_ledger req w key :
  valid req -> SMTP_CONFIGURED env = true -> all_live w ->
  ledger (exec (send_code env transport req) w) key
  = (ledger w key
     ++ (if decide (within_limit w req) then
           (if decide (recipient_key req = key) then [clock w] else [])
           ++ (if decide (caller_ip req = key) then [clock w] else [])
         else []))%list.
Proof.
  intros Hv Hc Hlive. destruct (decide (within_limit w req)) as [Hlim|Hlim].
  - destruct (send_code_passed_run req w Hv Hc Hlim)
      as (r & w' & k & _ & _ & (Ha & _) & Hsc).
    transitivity (ledger (record (caller_ip req) (record (recipient_key req)
      (purge (caller_ip req) (purge (recipient_key req) w)))) key).
    { unfold exec, ledger. rewrite Hsc.
      destruct (res_ok r); cbn; rewrite Ha; reflexivity. }
    pose proof (all_live_purge _ (recipient_key req) Hlive) as H1.
    pose proof (all_live_purge _ (caller_ip req) H1) as H2.
    pose proof (all_live_record _ (recipient_key req) H2) as H3.
    rewrite (ledger_record_all_live _ _ _ H3), (ledger_record_all_live _ _ _ H2).
    rewrite (ledger_purge_all_live _ _ _ H1), (ledger_purge_all_live _ _ _ Hlive).
    rewrite <- app_assoc. reflexivity.
  - rewrite app_nil_r.
    destruct (send_code_throttled req w Hv Hc Hlim) as [_ [-> | ->]].
    + apply ledger_purge_all_live, Hlive.
    + rewrite (ledger_purge_all_live _ _ _ (all_live_purge _ _ Hlive)).
      apply ledger_purge_all_live, Hlive.
Qed.

Lemma send_code_clock req w :
  (clock w <= clock (exec (send_code env transport req) w))%Z.
Proof.
  destruct (valid_or_missing req) as [Hv|Hm].
  - destruct (SMTP_CONFIGURED env) eqn:Hc.
    + destruct (within_limit_dec w req) as [Hlim|Hlim].
      * destruct (send_code_passed_run req w Hv Hc Hlim)
          as (r & w' & k & _ & _ & (_ & _ & _ & _ & Hclk) & Hsc).
        unfold exec. rewrite Hsc. destruct (res_ok r); exact Hclk.
      * destruct (send_code_throttled req w Hv Hc Hlim) as [_ [-> | ->]];
          reflexivity.
    + unfold exec. rewrite (send_code_simulated req w Hv Hc). reflexivity.
  - unfold exec. rewrite (send_code_missing req w Hm). reflexivity.
Qed.

Lemma send_code_answer req w :
  valid req -> SMTP_CONFIGURED env = true -> within_limit w req ->
  eval (send_code env transport req) w = Normal delivered_response
  \/ eval (send_code env transport req) w = Normal queued_response.
Proof.
  intros Hv Hc Hlim.
  destruct (send_code_passed_run req w Hv Hc Hlim)
    as (r & w' & k & _ & _ & _ & Hsc).
  unfold eval. rewrite Hsc. destruct (res_ok r); auto.
Qed.

Lemma served_all_live c0 e i w :
  served c0 e i w -> (clock w - c0 < WINDOW_MS)%Z -> all_live w.
Proof.
  intros (_ & Hin & _) Hw key t Ht. specialize (Hin key t Ht). lia.
Qed.

Lemma served_empty e w : sendAttempts w = ∅ -> served (clock w) e 0 w.
Proof.
  intros Hempty.
  assert (Hnil : forall key, ledger w key = []).
  { intros key. unfold ledger. rewrite Hempty, lookup_empty. reflexivity. }
  split; [lia|]. split.
  - intros key t. rewrite Hnil. intros Ht. inversion Ht.
  - right. split; [lia|]. intros key _. rewrite Hnil. cbn. lia.
Qed.

Lemma served_tick c0 e i d w :
  (0 <= d)%Z -> served c0 e i w -> served c0 e i (tick d w).
Proof.
  intros Hd (Hc & Hin & Hcount). split; [cbn; lia|]. split; [|exact Hcount].
  intros key t Ht. specialize (Hin key t Ht). cbn [clock tick]. lia.
Qed.

Lemma served_step c0 e i req w :
  valid req -> recipient_key req = e -> SMTP_CONFIGURED env = true ->
  served c0 e i w ->
  (clock (exec (send_code env transport req) w) - c0 < WINDOW_MS)%Z ->
  served c0 e (S i) (exec (send_code env transport req) w).
Proof.
  intros Hv He Hc Hs Hw. pose proof (send_code_clock req w) as Hclk.
  assert (Hlive : all_live w) by (apply (served_all_live _ _ _ _ Hs); lia).
  destruct Hs as (Hc0 & Hin & Hcount).
  split; [lia|]. split.
  - intros key t. rewrite (send_code_ledger req w key Hv Hc Hlive).
    rewrite elem_of_app. intros [Ht|Ht]; [specialize (Hin key t Ht); lia|].
    assert (t = clock w) as ->; [|lia].
    destruct (decide (within_limit w req)); [|inversion Ht].
    apply elem_of_app in Ht as [Ht|Ht];
      [destruct (decide (recipient_key req = key))
      |destruct (decide (caller_ip req = key))];
      first [apply list_elem_of_singleton in Ht; exact Ht | inversion Ht].
  - rewrite (send_code_ledger req w e Hv Hc Hlive), length_app.
    destruct (decide (within_limit w req)) as [Hlim|Hlim].
    + rewrite He, decide_True by reflexivity. rewrite length_app. cbn [length].
      destruct Hcount as [H3|[Hi Hother]]; [left; lia|]. right. split; [lia|].
      intros key Hne. rewrite (send_code_ledger req w key Hv Hc Hlive).
      rewrite decide_True by exact Hlim. rewrite He, decide_False by congruence.
      rewrite !length_app. specialize (Hother key Hne).
      destruct (decide (caller_ip req = key)); cbn [length]; lia.
    + cbn [length]. rewrite Nat.add_0_r.
      destruct Hcount as [H3|[Hi Hother]]; [left; exact H3|]. left.
      destruct (Nat.lt_ge_cases (length (ledger w e)) MAX_ATTEMPTS) as [Hlt|Hge];
        [|exact Hge].
      exfalso. apply Hlim. unfold within_limit.
      rewrite !(live_all_live _ _ Hlive), He. split; [exact Hlt|].
      destruct (decide (caller_ip req = e)) as [->|Hne]; [exact Hlt|].
      specialize (Hother _ Hne). lia.
Qed.

Lemma serve_clock reqs : forall w,
  (forall rd, rd ∈ reqs -> (0 <= rd.2)%Z) ->
  (clock w <= clock (serve env transport reqs w))%Z.
Proof.
  induction reqs as [|[req d] reqs IH]; intros w Hd; [reflexivity|].
  cbn [serve]. fold (exec (send_code env transport req) w).
  etransitivity; [|apply IH; intros rd Hrd; apply Hd; right; exact Hrd].
  pose proof (send_code_clock req w). specialize (Hd (req, d) ltac:(left)).
  cbn in *. lia.
Qed.

Lemma serve_served c0 e reqs : forall w i,
  SMTP_CONFIGURED env = true ->
  (forall rd, rd ∈ reqs ->
     (0 <= rd.2)%Z /\ valid rd.1 /\ recipient_key rd.1 = e) ->
  served c0 e i w ->
  (clock (serve env transport reqs w) - c0 < WINDOW_MS)%Z ->
  served c0 e (i + length reqs) (serve env transport reqs w).
Proof.
  induction reqs as [|[req d] reqs IH]; intros w i Hc Hall Hs Hw.
  - cbn [serve length]. rewrite Nat.add_0_r. exact Hs.
  - cbn [serve length] in *. fold (exec (send_code env transport req) w) in *.
    destruct (Hall (req, d) ltac:(left)) as (Hd & Hv & He). cbn [fst snd] in *.
    assert (Hrest : forall rd, rd ∈ reqs ->
      (0 <= rd.2)%Z /\ valid rd.1 /\ recipient_key rd.1 = e)
      by (intros rd Hrd; apply Hall; right; exact Hrd).
    pose proof (serve_clock reqs (tick d (exec (send_code env transport req) w))
      (fun rd Hrd => proj1 (Hrest rd Hrd))) as Hmono.
    cbn [clock tick] in Hmono.
    replace (i + S (length reqs)) with (S i + length reqs) by lia.
    apply IH; [exact Hc|exact Hrest| |exact Hw].
    apply served_tick; [exact Hd|]. apply served_step; try assumption. lia.
Qed.

Lemma within_limit_expired req w :
  (forall t, t ∈ ledger w (recipient_key req) -> (WINDOW_MS <= clock w - t)%Z) ->
  (forall t, t ∈ ledger w (caller_ip req) -> (WINDOW_MS <= clock w - t)%Z) ->
  within_limit w req.
Proof.
  intros He Hi. unfold within_limit, live.
  rewrite (filter_none_live _ _ He), (filter_none_live _ _ Hi).
  cbn. unfold MAX_ATTEMPTS. lia.
Qed.

(** C5: [canSend(key)] answers [true] exactly when fewer than
    [MAX_ATTEMPTS] = 3 of the timestamps stored for [key] are younger than
    [WINDOW_MS] = 15 minutes, and leaves exactly those stored.  A valid request
    is answered with status 429 exactly when the recipient key or the caller
    key fails that test.  Hence, starting from an empty map, after three or
    more valid requests for one recipient made within the window, the next
    request for that recipient is answered 429; and once [WINDOW_MS] or more
    has passed since then, a request is admitted again (answered 200 or 202).
    In general a request is admitted as soon as every timestamp stored for
    its two keys has left the window. *)
Theorem rate_limit_window :
  SMTP_CONFIGURED env = true ->
  (forall key w,
     exists b,
       eval (canSend key) w = Normal b
       /\ (b = true <-> length (live w key) < MAX_ATTEMPTS)
       /\ ledger (exec (canSend key) w) key = live w key)
  /\ MAX_ATTEMPTS = 3
  /\ WINDOW_MS = (15 * 60 * 1000)%Z
  /\ (forall req w,
        valid req ->
        (eval (send_code env transport req) w = Normal throttled_response
         <-> ~ (length (live w (recipient_key req)) < MAX_ATTEMPTS
                /\ length (live w (caller_ip req)) < MAX_ATTEMPTS))
        /\ status throttled_response = 429)
  /\ (forall reqs req w,
        sendAttempts w = ∅ ->
        MAX_ATTEMPTS <= length reqs ->
        (forall rd, rd ∈ reqs ->
           (0 <= rd.2)%Z /\ valid rd.1
           /\ recipient_key rd.1 = recipient_key req) ->
        valid req ->
        (clock (serve env transport reqs w) - clock w < WINDOW_MS)%Z ->
        eval (send_code env transport req) (serve env transport reqs w)
        = Normal throttled_response
        /\ forall d req',
             (WINDOW_MS <= d)%Z -> valid req' ->
             let later :=
               tick d (exec (send_code env transport req)
                         (serve env transport reqs w)) in
             eval (send_code env transport req') later = Normal delivered_response
             \/ eval (send_code env transport req') later = Normal queued_response)
  /\ (forall req w,
        valid req ->
        (forall t, t ∈ ledger w (recipient_key req) ->
           (WINDOW_MS <= clock w - t)%Z) ->
        (forall t, t ∈ ledger w (caller_ip req) ->
           (WINDOW_MS <= clock w - t)%Z) ->
        eval (send_code env transport req) w = Normal delivered_response
        \/ eval (send_code env transport req) w = Normal queued_response).
Proof.
  intros Hc.
  split; [|split; [reflexivity|split; [reflexivity|split; [|split]]]].
  - intros key w. exists (length (live w key) <? MAX_ATTEMPTS).
    unfold eval, exec. rewrite canSend_eq. cbn [fst snd].
    split; [reflexivity|]. split; [apply Nat.ltb_lt|].
    rewrite ledger_purge, decide_True by reflexivity. reflexivity.
  - intros req w Hv. split; [|reflexivity]. split.
    + intros Hthr Hlim.
      destruct (send_code_answer req w Hv Hc Hlim) as [H|H];
        rewrite H in Hthr; discriminate.
    + intros Hlim. apply (send_code_throttled req w Hv Hc Hlim).
  - intros reqs req w Hempty Hlen Hall Hv Hw.
    set (e := recipient_key req) in *. set (wT := serve env transport reqs w) in *.
    pose proof (serve_served (clock w) e reqs w 0 Hc Hall (served_empty e w Hempty) Hw)
      as Hs. fold wT in Hs. cbn [Nat.add] in Hs.
    pose proof (served_all_live _ _ _ _ Hs Hw) as Hlive.
    assert (Hlim : ~ within_limit wT req).
    { intros [He _]. fold e in He. rewrite (live_all_live _ _ Hlive) in He.
      destruct Hs as (_ & _ & [H3|[Hi _]]); lia. }
    destruct (send_code_throttled req wT Hv Hc Hlim) as [Hthr Hex].
    split; [exact Hthr|]. intros d req' Hd Hv' later.
    apply (send_code_answer req' later Hv' Hc).
    assert (Hold : forall key t, t ∈ ledger later key ->
      (WINDOW_MS <= clock later - t)%Z).
    { intros key t Ht.
      assert (Hclk : clock later = (clock wT + d)%Z)
        by (subst later; destruct Hex as [-> | ->]; reflexivity).
      assert (Hin : t ∈ ledger wT key).
      { change (ledger later key)
          with (ledger (exec (send_code env transport req) wT) key) in Ht.
        rewrite (send_code_ledger req wT key Hv Hc Hlive) in Ht.
        rewrite decide_False in Ht by exact Hlim.
        rewrite app_nil_r in Ht. exact Ht. }
      destruct Hs as (_ & Hbound & _). specialize (Hbound key t Hin). lia. }
    apply within_limit_expired; intros t; apply Hold.
  - intros req w Hv He Hi.
    apply (send_code_answer req w Hv Hc), within_limit_expired; assumption.
Qed.

End Properties.

(** ** The statements at the sample inputs *)

Import Sample.

Lemma valid_bob : valid bob.
Proof.
  exists "user@example.com"%string, "bob"%string, "123456"%string.
  repeat split; discriminate.
Defined.

Lemma within_limit_boot_bob : within_limit boot bob.
Proof. split; vm_compute; lia. Defined.

(** With [sendMail] rejecting every call, a worker cycle over [item0] makes
    three calls, with the two backoff waits between them. *)
Lemma worker_three_sends :
  SMTP_CONFIGURED env_smtp = true
  /\ FAILED_QUEUE queued = [item0]
  /\ attempts item0 < RETRY_LIMIT
  /\ sent (exec (worker env_smtp refusing) queued) = sent queued + 3
  /\ sent (exec (worker env_smtp refusing) queued) <> sent queued + 1
  /\ trace (exec (worker env_smtp refusing) queued)
     = [SendMail mail0 (Rejected "ECONNREFUSED"); Sleep 1000;
        SendMail mail0 (Rejected "ECONNREFUSED"); Sleep 3000;
        SendMail mail0 (Rejected "ECONNREFUSED")].
Proof.
  split; [reflexivity|]. split; [reflexivity|].
  split; [unfold RETRY_LIMIT; cbn; lia|].
  split; [reflexivity|]. split; [vm_compute; discriminate|]. reflexivity.
Qed.

Lemma worker_uses_bounded_retry_witness :
  SMTP_CONFIGURED env_smtp = true
  /\ FAILED_QUEUE queued = [item0]
  /\ attempts item0 < RETRY_LIMIT
  /\ exists k,
       1 <= k <= RETRY_LIMIT
       /\ sent (exec (worker env_smtp refusing) queued) = sent queued + k
       /\ k = RETRY_LIMIT.
Proof.
  assert (Ha : attempts item0 < RETRY_LIMIT) by (vm_compute; lia).
  split; [reflexivity|]. split; [reflexivity|]. split; [exact Ha|].
  destruct (worker_uses_bounded_retry env_smtp refusing queued item0 []
              eq_refl eq_refl Ha)
    as (k & Hk & Hs & _ & _ & _ & _ & _ & Hall).
  exists k. split; [exact Hk|]. split; [exact Hs|].
  apply Hall. intros j _. reflexivity.
Defined.

(** In simulation mode a valid request leaves no timestamp behind. *)
Lemma simulation_records_nothing :
  SMTP_CONFIGURED env_bare = false
  /\ valid bob
  /\ eval (send_code env_bare refusing bob) boot = Normal simulated_response
  /\ sendAttempts (exec (send_code env_bare refusing bob) boot) = ∅
  /\ ledger (exec (send_code env_bare refusing bob) boot) (recipient_key bob) = []
  /\ ledger (exec (send_code env_bare refusing bob) boot) (caller_ip bob) = []
  /\ ~ clock boot ∈ ledger (exec (send_code env_bare refusing bob) boot)
                       (recipient_key bob).
Proof.
  split; [reflexivity|]. split; [exact valid_bob|].
  split; [reflexivity|]. split; [reflexivity|].
  split; [reflexivity|]. split; [reflexivity|].
  change (ledger (exec (send_code env_bare refusing bob) boot) (recipient_key bob))
    with (@nil Z).
  intros H. inversion H.
Qed.

Lemma simulation_logs_only_witness :
  SMTP_CONFIGURED env_bare = false
  /\ valid bob
  /\ eval (send_code env_bare refusing bob) boot = Normal simulated_response
  /\ sendAttempts (exec (send_code env_bare refusing bob) boot) = sendAttempts boot
  /\ trace (exec (send_code env_bare refusing bob) boot)
     = [ConsoleLog "[SIMULATION] send-code"].
Proof.
  split; [reflexivity|]. split; [exact valid_bob|].
  destruct (simulation_logs_only env_bare refusing bob boot eq_refl valid_bob)
    as (He & Ha & _ & _ & Ht).
  split; [exact He|]. split; [exact Ha|]. exact Ht.
Defined.

Lemma retrySend_bounded_backoff_witness :
  ((forall j, j < RETRY_LIMIT ->
      is_rejected (refusing (sent boot + j) mail0) = true)
   /\ exists err,
        eval (retrySend refusing mail0) boot
        = Normal {| res_ok := false; res_info := None; res_err := Some err |}
        /\ sent (exec (retrySend refusing mail0) boot) = 3)
  /\ ((forall j, j < 1 -> is_rejected (flaky (sent boot + j) mail0) = true)
      /\ flaky (sent boot + 1) mail0 = Resolved "<1@example.com>"
      /\ eval (retrySend flaky mail0) boot
         = Normal {| res_ok := true; res_info := Some "<1@example.com>"%string;
                     res_err := None |}
      /\ sent (exec (retrySend flaky mail0) boot) = 2).
Proof.
  split.
  - assert (H : forall j, j < RETRY_LIMIT ->
      is_rejected (refusing (sent boot + j) mail0) = true)
      by (intros j _; reflexivity).
    split; [exact H|].
    destruct (retrySend_bounded_backoff refusing mail0 boot) as [Hfail _].
    destruct (Hfail H) as (e0 & e1 & err & He & Hs & _).
    exists err. split; [exact He|exact Hs].
  - assert (H : forall j, j < 1 ->
      is_rejected (flaky (sent boot + j) mail0) = true).
    { intros j Hj. assert (j = 0) as -> by lia. reflexivity. }
    split; [exact H|]. split; [reflexivity|].
    destruct (retrySend_bounded_backoff flaky mail0 boot) as [_ Hok].
    destruct (Hok 1 "<1@example.com>"%string ltac:(unfold RETRY_LIMIT; lia) H eq_refl)
      as (He & Hs & _).
    split; [exact He|exact Hs].
Defined.

Lemma queue_lifecycle_witness :
  SMTP_CONFIGURED env_smtp = true
  /\ (forall n mail, is_rejected (refusing n mail) = true)
  /\ FAILED_QUEUE (cycles env_smtp refusing 1 queued) = [with_attempts item0 1]
  /\ FAILED_QUEUE (cycles env_smtp refusing 2 queued) = [with_attempts item0 2]
  /\ FAILED_QUEUE (cycles env_smtp refusing 3 queued) = [with_attempts item0 3]
  /\ FAILED_QUEUE (cycles env_smtp refusing 4 queued) = []
  /\ cycles env_smtp refusing 7 queued = cycles env_smtp refusing 4 queued.
Proof.
  assert (H : forall n mail, is_rejected (refusing n mail) = true)
    by (intros n mail; reflexivity).
  split; [reflexivity|]. split; [exact H|].
  destruct (queue_lifecycle env_smtp refusing eq_refl H) as [_ Hlife].
  destruct (Hlife queued item0 eq_refl eq_refl) as (Hn & H4 & _ & Hstay).
  split; [apply (Hn 1); unfold RETRY_LIMIT; lia|].
  split; [apply (Hn 2); unfold RETRY_LIMIT; lia|].
  split; [apply (Hn 3); unfold RETRY_LIMIT; lia|].
  split; [exact H4|]. exact (Hstay 3).
Defined.

(** After its third failed cycle the item is still in the queue. *)
Lemma queued_after_third_failure :
  SMTP_CONFIGURED env_smtp = true
  /\ FAILED_QUEUE queued = [item0]
  /\ attempts item0 = 0
  /\ is_rejected (refusing 0 mail0) = true
  /\ sent (cycles env_smtp refusing 1 queued) = 3
  /\ sent (cycles env_smtp refusing 2 queued) = 6
  /\ sent (cycles env_smtp refusing 3 queued) = 9
  /\ FAILED_QUEUE (cycles env_smtp refusing 3 queued) = [with_attempts item0 3]
  /\ FAILED_QUEUE (cycles env_smtp refusing 3 queued) <> []
  /\ FAILED_QUEUE (cycles env_smtp refusing 4 queued) = []
  /\ sent (cycles env_smtp refusing 4 queued) = 9.
Proof.
  do 8 (split; [reflexivity|]).
  split; [vm_compute; discriminate|]. split; reflexivity.
Qed.

Lemma missing_field_rejected_witness :
  (missing_or_empty (recipient no_code) \/ missing_or_empty (displayName no_code)
     \/ missing_or_empty (code_of no_code))
  /\ eval (send_code env_smtp refusing no_code) busy = Normal missing_response
  /\ exec (send_code env_smtp refusing no_code) busy = busy
  /\ eval (send_code env_smtp refusing empty_name) busy = Normal missing_response
  /\ eval (send_code env_smtp refusing no_body) busy = Normal missing_response.
Proof.
  assert (H1 : missing_or_empty (recipient no_code)
               \/ missing_or_empty (displayName no_code)
               \/ missing_or_empty (code_of no_code))
    by (right; right; left; reflexivity).
  assert (H2 : missing_or_empty (recipient empty_name)
               \/ missing_or_empty (displayName empty_name)
               \/ missing_or_empty (code_of empty_name))
    by (right; left; right; reflexivity).
  assert (H3 : missing_or_empty (recipient no_body)
               \/ missing_or_empty (displayName no_body)
               \/ missing_or_empty (code_of no_body))
    by (left; left; reflexivity).
  split; [exact H1|].
  destruct (missing_field_rejected env_smtp refusing no_code busy H1)
    as (He & _ & _ & Hw).
  split; [exact He|]. split; [exact Hw|].
  split; [apply (missing_field_rejected env_smtp refusing empty_name busy H2)|].
  apply (missing_field_rejected env_smtp refusing no_body busy H3).
Defined.

Lemma validation_precedes_simulation_witness :
  SMTP_CONFIGURED env_bare = false
  /\ (missing_or_empty (recipient no_code) \/ missing_or_empty (displayName no_code)
      \/ missing_or_empty (code_of no_code))
  /\ eval (send_code env_bare refusing no_code) boot = Normal missing_response
  /\ eval (send_code env_bare refusing no_code) boot <> Normal simulated_response.
Proof.
  assert (H1 : missing_or_empty (recipient no_code)
               \/ missing_or_empty (displayName no_code)
               \/ missing_or_empty (code_of no_code))
    by (right; right; left; reflexivity).
  split; [reflexivity|]. split; [exact H1|].
  destruct (validation_precedes_simulation env_bare refusing no_code boot eq_refl H1)
    as (He & Hne & _).
  split; [exact He|exact Hne].
Defined.

Lemma simulation_mode_frame_witness :
  SMTP_CONFIGURED env_bare = false
  /\ valid bob
  /\ length (live busy (recipient_key bob)) = MAX_ATTEMPTS
  /\ eval (send_code env_bare refusing bob) busy = Normal simulated_response
  /\ FAILED_QUEUE (exec (send_code env_bare refusing bob) queued) = FAILED_QUEUE queued
  /\ worker env_bare refusing queued = (Normal tt, queued).
Proof.
  split; [reflexivity|]. split; [exact valid_bob|]. split; [reflexivity|].
  destruct (simulation_mode_frame env_bare refusing bob busy eq_refl valid_bob)
    as (He & _).
  destruct (simulation_mode_frame env_bare refusing bob queued eq_refl valid_bob)
    as (_ & _ & _ & Hq & _ & Hw).
  split; [exact He|]. split; [exact Hq|exact Hw].
Defined.

Lemma transport_errors_never_propagate_witness :
  valid bob /\ SMTP_CONFIGURED env_smtp = true /\ within_limit boot bob
  /\ eval (send_code env_smtp refusing bob) boot = Normal queued_response
  /\ FAILED_QUEUE (exec (send_code env_smtp refusing bob) boot) = [item0]
  /\ eval (send_code env_smtp flaky bob) boot = Normal delivered_response
  /\ FAILED_QUEUE (exec (send_code env_smtp flaky bob) boot) = [].
Proof.
  split; [exact valid_bob|]. split; [reflexivity|].
  split; [exact within_limit_boot_bob|].
  destruct (transport_errors_never_propagate env_smtp refusing bob boot
              valid_bob eq_refl within_limit_boot_bob) as [Hr _].
  destruct (transport_errors_never_propagate env_smtp flaky bob boot
              valid_bob eq_refl within_limit_boot_bob) as [Hf _].
  split; [|split; [|split]].
  - destruct Hr as [(k & info & _ & _ & Hres & _)|(_ & He & _)];
      [discriminate Hres|exact He].
  - destruct Hr as [(k & info & _ & _ & Hres & _)|(_ & _ & Hq)];
      [discriminate Hres|exact Hq].
  - destruct Hf as [(k & info & _ & _ & _ & He & _)|(Hall & _)]; [exact He|].
    specialize (Hall 1 ltac:(unfold RETRY_LIMIT; lia)). discriminate Hall.
  - destruct Hf as [(k & info & _ & _ & _ & _ & Hq)|(Hall & _)]; [exact Hq|].
    specialize (Hall 1 ltac:(unfold RETRY_LIMIT; lia)). discriminate Hall.
Defined.

Lemma recorded_at_admission_witness :
  SMTP_CONFIGURED env_smtp = true
  /\ valid bob /\ within_limit boot bob
  /\ clock boot ∈ ledger (exec (send_code env_smtp refusing bob) boot)
                   (recipient_key bob)
  /\ clock boot ∈ ledger (exec (send_code env_smtp refusing bob) boot)
                   (caller_ip bob)
  /\ (eval (send_code env_smtp refusing bob) busy = Normal throttled_response
      /\ status throttled_response = 429
      /\ trace (exec (send_code env_smtp refusing bob) busy) = trace busy).
Proof.
  split; [reflexivity|]. split; [exact valid_bob|].
  split; [exact within_limit_boot_bob|].
  destruct (recorded_at_admission env_smtp refusing bob boot eq_refl) as [Hadm _].
  destruct (Hadm valid_bob within_limit_boot_bob)
    as (k & final & _ & _ & _ & He & Hi).
  split; [exact He|]. split; [exact Hi|].
  destruct (recorded_at_admission env_smtp refusing bob busy eq_refl) as [_ Hrej].
  split; [reflexivity|]. split; [reflexivity|].
  apply (Hrej throttled_response eq_refl). right. reflexivity.
Defined.

Lemma rate_limit_window_witness :
  SMTP_CONFIGURED env_smtp = true
  /\ sendAttempts boot = ∅
  /\ (clock (serve env_smtp refusing [(bob, 1000); (bob, 1000); (bob, 1000)]%Z boot)
      - clock boot < WINDOW_MS)%Z
  /\ eval (send_code env_smtp refusing bob)
       (serve env_smtp refusing [(bob, 1000); (bob, 1000); (bob, 1000)]%Z boot)
     = Normal throttled_response
  /\ (eval (send_code env_smtp refusing bob)
        (tick WINDOW_MS
           (exec (send_code env_smtp refusing bob)
              (serve env_smtp refusing [(bob, 1000); (bob, 1000); (bob, 1000)]%Z boot)))
      = Normal delivered_response
      \/ eval (send_code env_smtp refusing bob)
           (tick WINDOW_MS
              (exec (send_code env_smtp refusing bob)
                 (serve env_smtp refusing [(bob, 1000); (bob, 1000); (bob, 1000)]%Z boot)))
         = Normal queued_response).
Proof.
  assert (Hw : (clock (serve env_smtp refusing
                  [(bob, 1000); (bob, 1000); (bob, 1000)]%Z boot)
                - clock boot < WINDOW_MS)%Z) by (vm_compute; reflexivity).
  split; [reflexivity|]. split; [reflexivity|]. split; [exact Hw|].
  destruct (rate_limit_window env_smtp refusing eq_refl)
    as (_ & _ & _ & _ & Hfour & _).
  assert (Hall : forall rd : Request * Z,
    rd ∈ [(bob, 1000); (bob, 1000); (bob, 1000)]%Z ->
    (0 <= rd.2)%Z /\ valid rd.1 /\ recipient_key rd.1 = recipient_key bob).
  { intros rd Hrd. apply list_elem_of_In in Hrd. cbn [In] in Hrd.
    destruct Hrd as [<-|[<-|[<-|[]]]];
      (split; [cbn; lia|split; [exact valid_bob|reflexivity]]). }
  destruct (Hfour [(bob, 1000); (bob, 1000); (bob, 1000)]%Z bob boot
              eq_refl ltac:(unfold MAX_ATTEMPTS; cbn; lia) Hall valid_bob Hw)
    as [Hthr Hlater].
  split; [exact Hthr|].
  apply (Hlater WINDOW_MS bob); [lia|exact valid_bob].
Defined.

(** * Further properties of the script *)

Section Coverage.

Variable env : Env.
Variable transport : nat -> MailOptions -> Settled.

(** ** The bounded retry sender, unrolled *)

Lemma retrySend_cases mail w :
  retrySend transport mail w
  = match transport (sent w) mail with
    | Resolved info =>
      (Normal {| res_ok := true; res_info := Some info; res_err := None |},
       note_send mail (Resolved info) w)
    | Rejected e0 =>
      let w1 := emit (Sleep 1000) (tick 1000 (note_send mail (Rejected e0) w)) in
      match transport (S (sent w)) mail with
      | Resolved info =>
        (Normal {| res_ok := true; res_info := Some info; res_err := None |},
         note_send mail (Resolved info) w1)
      | Rejected e1 =>
        let w2 :=
          emit (Sleep 3000) (tick 3000 (note_send mail (Rejected e1) w1)) in
        match transport (S (S (sent w))) mail with
        | Resolved info =>
          (Normal {| res_ok := true; res_info := Some info; res_err := None |},
           note_send mail (Resolved info) w2)
        | Rejected e2 =>
          (Normal {| res_ok := false; res_info := None; res_err := Some e2 |},
           note_send mail (Rejected e2) w2)
        end
      end
    end.
Proof.
  unfold retrySend. change (S RETRY_LIMIT) with 4.
  destruct (transport (sent w) mail) as [i0|e0] eqn:E0.
  { apply retrySend_loop_resolved; [unfold RETRY_LIMIT; lia|exact E0]. }
  rewrite (retrySend_loop_retry transport _ 0 mail w e0)
    by (unfold RETRY_LIMIT; lia || exact E0).
  cbv zeta. cbn [Nat.min delays length Nat.sub nth Nat.add].
  set (w1 := emit (Sleep 1000) (tick 1000 (note_send mail (Rejected e0) w))).
  change (S (sent w)) with (sent w1).
  destruct (transport (sent w1) mail) as [i1|e1] eqn:E1.
  { apply retrySend_loop_resolved; [unfold RETRY_LIMIT; lia|exact E1]. }
  rewrite (retrySend_loop_retry transport _ 1 mail w1 e1)
    by (unfold RETRY_LIMIT; lia || exact E1).
  cbv zeta. cbn [Nat.min delays length Nat.sub nth Nat.add].
  set (w2 := emit (Sleep 3000) (tick 3000 (note_send mail (Rejected e1) w1))).
  change (S (sent w1)) with (sent w2).
  destruct (transport (sent w2) mail) as [i2|e2] eqn:E2.
  { apply retrySend_loop_resolved; [unfold RETRY_LIMIT; lia|exact E2]. }
  apply retrySend_loop_exhausted; [unfold RETRY_LIMIT; lia..|exact E2].
Qed.

(** X1: a call of [retrySend] makes [k] calls of [sendMail] for the same
    message, [1 <= k <= RETRY_LIMIT], and spends in its timers nothing when
    [k = 1], 1000 ms when [k = 2] and 4000 ms when [k = 3]: every wait is
    1000 or 3000 ms, the entry 7000 of [delays] is never used, and the caller
    is held up by the timers for at most 4 seconds. *)
Theorem retrySend_latency mail w :
  exists k evs,
    1 <= k <= RETRY_LIMIT
    /\ trace (exec (retrySend transport mail) w) = (trace w ++ evs)%list
    /\ mails evs = replicate k mail
    /\ sent (exec (retrySend transport mail) w) = sent w + k
    /\ clock (exec (retrySend transport mail) w) = (clock w + waited evs)%Z
    /\ waited evs = nth (k - 1) [0; 1000; 4000]%Z 0%Z
    /\ (forall ms, Sleep ms ∈ evs -> ms = 1000%Z \/ ms = 3000%Z)
    /\ (clock (exec (retrySend transport mail) w) - clock w <= 4000)%Z.
Proof.
  unfold exec. rewrite retrySend_cases.
  assert (Hin : forall (evs : list Event),
    (forall ev, ev ∈ evs ->
       match ev with Sleep ms => ms = 1000%Z \/ ms = 3000%Z | _ => True end) ->
    forall ms, Sleep ms ∈ evs -> ms = 1000%Z \/ ms = 3000%Z).
  { intros evs H ms Hms. apply (H _ Hms). }
  destruct (transport (sent w) mail) as [i0|e0].
  { exists 1, [SendMail mail (Resolved i0)]. cbn.
    repeat split; try (unfold RETRY_LIMIT; lia).
    apply Hin. intros ev Hev. apply list_elem_of_In in Hev. cbn in Hev.
    destruct Hev as [<-|[]]. exact I. }
  cbv zeta. destruct (transport (S (sent w)) mail) as [i1|e1].
  { exists 2, [SendMail mail (Rejected e0); Sleep 1000;
               SendMail mail (Resolved i1)].
    cbn. rewrite <- !app_assoc.
    repeat split; try (unfold RETRY_LIMIT; lia).
    apply Hin. intros ev Hev. apply list_elem_of_In in Hev. cbn in Hev.
    destruct Hev as [<-|[<-|[<-|[]]]]; cbn; auto. }
  destruct (transport (S (S (sent w))) mail) as [i2|e2].
  - exists 3, [SendMail mail (Rejected e0); Sleep 1000;
               SendMail mail (Rejected e1); Sleep 3000;
               SendMail mail (Resolved i2)].
    cbn. rewrite <- !app_assoc.
    repeat split; try (unfold RETRY_LIMIT; lia).
    apply Hin. intros ev Hev. apply list_elem_of_In in Hev. cbn in Hev.
    destruct Hev as [<-|[<-|[<-|[<-|[<-|[]]]]]]; cbn; auto.
  - exists 3, [SendMail mail (Rejected e0); Sleep 1000;
               SendMail mail (Rejected e1); Sleep 3000;
               SendMail mail (Rejected e2)].
    cbn. rewrite <- !app_assoc.
    repeat split; try (unfold RETRY_LIMIT; lia).
    apply Hin. intros ev Hev. apply list_elem_of_In in Hev. cbn in Hev.
    destruct Hev as [<-|[<-|[<-|[<-|[<-|[]]]]]]; cbn; auto.
Qed.

(** X2: [retrySend] never throws and never resolves with the bare
    [{ ok: false }] that follows its loop: its value is [{ ok: true, info }]
    when one of the attempts resolved, and [{ ok: false, err }] with the last
    rejection when all [RETRY_LIMIT] attempts were rejected.  It leaves
    [sendAttempts] and [FAILED_QUEUE] as they were. *)
Theorem retrySend_result mail w :
  exists r,
    eval (retrySend transport mail) w = Normal r
    /\ ((exists info k,
           k < RETRY_LIMIT
           /\ transport (sent w + k) mail = Resolved info
           /\ r = {| res_ok := true; res_info := Some info; res_err := None |})
        \/ (exists err,
              transport (sent w + (RETRY_LIMIT - 1)) mail = Rejected err
              /\ (forall j, j < RETRY_LIMIT ->
                    is_rejected (transport (sent w + j) mail) = true)
              /\ r = {| res_ok := false; res_info := None; res_err := Some err |}))
    /\ r <> {| res_ok := false; res_info := None; res_err := None |}
    /\ sendAttempts (exec (retrySend transport mail) w) = sendAttempts w
    /\ FAILED_QUEUE (exec (retrySend transport mail) w) = FAILED_QUEUE w.
Proof.
  destruct (retrySend_run transport mail w)
    as (r & w' & k & Hrun & Hk & (Ha & Hq & _) & Hrej & Hlast).
  exists r. unfold eval, exec. rewrite Hrun. cbn [fst snd].
  split; [reflexivity|].
  destruct (transport (sent w + (k - 1)) mail) as [info|err] eqn:E.
  - subst r. split; [|split; [discriminate|auto]].
    left. exists info, (k - 1). split; [lia|]. auto.
  - destruct Hlast as [-> ->]. split; [|split; [discriminate|auto]].
    right. exists err. split; [exact E|]. split; [|reflexivity].
    intros j Hj. destruct (decide (j = RETRY_LIMIT - 1)) as [->|Hne].
    + rewrite E. reflexivity.
    + apply Hrej. lia.
Qed.

(** ** The handler as a whole *)

Lemma missing_not_valid req :
  missing_or_empty (recipient req) \/ missing_or_empty (displayName req)
    \/ missing_or_empty (code_of req) ->
  ~ valid req.
Proof.
  unfold recipient, displayName, code_of.
  intros Hm (e & u & c & Hf & He & Hu & Hc). rewrite Hf in Hm. cbn in Hm.
  destruct Hm as [[H|H]|[[H|H]|[H|H]]]; congruence.
Qed.

(** X3: for requests as the model has them, each of [email], [username] and
    [code] absent or a string, the handler answers every request, and with
    one of five answers: 400 exactly when one of the three is absent or the
    empty string; otherwise the simulated 200 when the transport is
    unconfigured; otherwise 429 when a key is over the limit; otherwise 200 or
    202.  No such request makes it throw.  (A field holding a JSON value that
    is not a string is outside the model and outside this statement.) *)
Theorem send_code_decision_table req w :
  exists resp,
    eval (send_code env transport req) w = Normal resp
    /\ (~ valid req -> resp = missing_response)
    /\ (valid req -> SMTP_CONFIGURED env = false -> resp = simulated_response)
    /\ (valid req -> SMTP_CONFIGURED env = true -> ~ within_limit w req ->
        resp = throttled_response)
    /\ (valid req -> SMTP_CONFIGURED env = true -> within_limit w req ->
        resp = delivered_response \/ resp = queued_response)
    /\ (status resp = 400 \/ status resp = 429
        \/ status resp = 200 \/ status resp = 202)
    /\ (ok resp = true <-> status resp = 200).
Proof.
  destruct (valid_or_missing req) as [Hv|Hm].
  - destruct (SMTP_CONFIGURED env) eqn:Hc.
    + destruct (within_limit_dec w req) as [Hlim|Hlim].
      * destruct (send_code_answer env transport req w Hv Hc Hlim) as [H|H];
          rewrite H; eexists; (split; [reflexivity|]);
          repeat split; try tauto; try discriminate; cbn; auto.
      * destruct (send_code_throttled env transport req w Hv Hc Hlim) as [H _].
        rewrite H. eexists; (split; [reflexivity|]).
        repeat split; try tauto; try discriminate; cbn; auto.
    + unfold eval. rewrite (send_code_simulated env transport req w Hv Hc).
      eexists; (split; [reflexivity|]).
      repeat split; try tauto; try discriminate; cbn; auto.
  - unfold eval. rewrite (send_code_missing env transport req w Hm).
    pose proof (missing_not_valid req Hm).
    eexists; (split; [reflexivity|]).
    repeat split; try tauto; try discriminate; cbn; auto.
Qed.

Lemma mails_app evs1 evs2 : mails (evs1 ++ evs2) = (mails evs1 ++ mails evs2)%list.
Proof.
  induction evs1 as [|ev evs1 IH]; [reflexivity|].
  destruct ev; cbn; rewrite IH; reflexivity.
Qed.

Lemma mails_backoff_trace mail outs : forall attemptIndex,
  mails (backoff_trace mail attemptIndex outs) = replicate (length outs) mail.
Proof.
  induction outs as [|r outs IH]; intros a; [reflexivity|].
  destruct outs as [|r' outs]; [reflexivity|].
  change (backoff_trace mail a (r :: r' :: outs))
    with (SendMail mail r
          :: Sleep (nth (Nat.min a (length delays - 1)) delays 0%Z)
          :: backoff_trace mail (S a) (r' :: outs)).
  cbn [mails]. rewrite IH. reflexivity.
Qed.

Lemma length_outcomes_from mail base n :
  length (outcomes_from transport mail base n) = n.
Proof. unfold outcomes_from. rewrite length_map, length_seq. reflexivity. Qed.

Lemma FROM_EMAIL_configured :
  SMTP_CONFIGURED env = true ->
  exists from, FROM_EMAIL env = Some from /\ from <> ""%string.
Proof.
  unfold SMTP_CONFIGURED, FROM_EMAIL, js_or. intros H.
  apply andb_prop in H as [H _]. apply andb_prop in H as [_ Hu].
  assert (Hne : forall v, truthy v = true -> exists s, v = Some s /\ s <> ""%string).
  { intros [s|] Hv; [|discriminate]. exists s. split; [reflexivity|].
    cbn in Hv. apply negb_true_iff, String.eqb_neq in Hv. exact Hv. }
  destruct (truthy (env_FROM_EMAIL env)) eqn:Hf; auto.
Qed.

(** X4: what the handler hands to [sendMail], for requests whose three fields
    are absent or strings.  An admitted request (valid, transport configured,
    both keys within the limit) makes between 1 and [RETRY_LIMIT] calls, all
    with the same message, addressed to the [email] of the request and sent
    from [FROM_EMAIL], which is then a non-empty string.  Every other request
    (a field missing or empty, simulation mode, a key over the limit) makes
    no call at all.  The counter of calls grows by the number of calls. *)
Theorem send_code_mails req w :
  exists evs,
    trace (exec (send_code env transport req) w) = (trace w ++ evs)%list
    /\ sent (exec (send_code env transport req) w) = sent w + length (mails evs)
    /\ (valid req /\ SMTP_CONFIGURED env = true /\ within_limit w req ->
        exists k from,
          1 <= k <= RETRY_LIMIT
          /\ mails evs = replicate k (mail_of env req)
          /\ length (mails evs) = k
          /\ recipient req = Some (mail_to (mail_of env req))
          /\ mail_from (mail_of env req) = Some from
          /\ from <> ""%string)
    /\ (~ (valid req /\ SMTP_CONFIGURED env = true /\ within_limit w req) ->
        mails evs = []).
Proof.
  destruct (valid_or_missing req) as [Hv|Hm].
  - destruct (SMTP_CONFIGURED env) eqn:Hc.
    + destruct (within_limit_dec w req) as [Hlim|Hlim].
      * destruct (send_code_passed_run env transport req w Hv Hc Hlim)
          as (r & w' & k & _ & Hk & (_ & _ & Hs & Ht & _) & Hsc).
        set (e := recipient_key req) in *. set (ip := caller_ip req) in *.
        set (w3 := record ip (record e (purge ip (purge e w)))) in *.
        change (sent w3) with (sent w) in Hs, Ht.
        change (trace w3)
          with ((trace w ++ [Recorded e (clock w)]) ++ [Recorded ip (clock w)])%list
          in Ht.
        exists ([Recorded e (clock w); Recorded ip (clock w)]
                ++ backoff_trace (mail_of env req) 0
                     (outcomes_from transport (mail_of env req) (sent w) k)
                ++ [if res_ok r then ConsoleLog "Email sent:"
                    else ConsoleError "Send failed, queuing for retry"])%list.
        assert (Hm : mails ([Recorded e (clock w); Recorded ip (clock w)]
                ++ backoff_trace (mail_of env req) 0
                     (outcomes_from transport (mail_of env req) (sent w) k)
                ++ [if res_ok r then ConsoleLog "Email sent:"
                    else ConsoleError "Send failed, queuing for retry"])
              = replicate k (mail_of env req)).
        { rewrite !mails_app, mails_backoff_trace, length_outcomes_from.
          destruct (res_ok r); cbn; apply app_nil_r. }
        rewrite Hm, length_replicate. unfold exec. rewrite Hsc.
        split; [|split; [|split]].
        { destruct (res_ok r); cbn [snd trace emit set_FAILED_QUEUE];
            rewrite Ht, <- !app_assoc; reflexivity. }
        { destruct (res_ok r); exact Hs. }
        { intros _. destruct (FROM_EMAIL_configured Hc) as (from & Hfrom & Hne).
          exists k, from. split; [exact Hk|]. split; [reflexivity|].
          split; [reflexivity|].
          split; [|split; [exact Hfrom|exact Hne]].
          destruct Hv as (e' & u & c & Hf & _). subst e.
          unfold mail_of, recipient_key, recipient. rewrite Hf. reflexivity. }
        { intros Hnot. exfalso. apply Hnot. auto. }
      * exists []. rewrite app_nil_r.
        split; [|split; [|split]].
        { destruct (send_code_throttled env transport req w Hv Hc Hlim)
            as [_ [-> | ->]]; reflexivity. }
        { destruct (send_code_throttled env transport req w Hv Hc Hlim)
            as [_ [-> | ->]]; cbn; lia. }
        { intros (_ & _ & H). contradiction. }
        { reflexivity. }
    + exists [ConsoleLog "[SIMULATION] send-code"]. unfold exec.
      rewrite (send_code_simulated env transport req w Hv Hc).
      split; [reflexivity|]. split; [cbn; lia|].
      split; [intros (_ & H & _); discriminate H|reflexivity].
  - exists []. unfold exec. rewrite (send_code_missing env transport req w Hm).
    rewrite app_nil_r. split; [reflexivity|]. split; [cbn; lia|].
    split; [|reflexivity].
    intros (Hv & _). exfalso. exact (missing_not_valid req Hm Hv).
Qed.

Lemma lookup_purge_ne key key' w :
  key <> key' -> sendAttempts (purge key w) !! key' = sendAttempts w !! key'.
Proof. intros Hne. unfold purge. cbn. apply lookup_insert_ne, Hne. Qed.

Lemma lookup_record_ne key key' w :
  key <> key' -> sendAttempts (record key w) !! key' = sendAttempts w !! key'.
Proof.
  intros Hne. unfold record. cbn. rewrite !lookup_insert_ne by exact Hne.
  reflexivity.
Qed.

(** X5: the handler reads and writes the rate limiter under the two keys of
    the request only: the entry of every other key, present or not, is after
    the request what it was before.  Using up the limit of one recipient or
    one caller leaves all the others where they were. *)
Theorem send_code_other_keys req w key :
  key <> recipient_key req -> key <> caller_ip req ->
  sendAttempts (exec (send_code env transport req) w) !! key
  = sendAttempts w !! key.
Proof.
  intros He Hi. destruct (valid_or_missing req) as [Hv|Hm].
  - destruct (SMTP_CONFIGURED env) eqn:Hc.
    + destruct (within_limit_dec w req) as [Hlim|Hlim].
      * destruct (send_code_passed_run env transport req w Hv Hc Hlim)
          as (r & w' & k & _ & _ & (Ha & _) & Hsc).
        unfold exec. rewrite Hsc.
        transitivity (sendAttempts w' !! key);
          [destruct (res_ok r); reflexivity|].
        rewrite Ha, !lookup_record_ne, !lookup_purge_ne by congruence.
        reflexivity.
      * destruct (send_code_throttled env transport req w Hv Hc Hlim)
          as [_ [-> | ->]]; rewrite ?lookup_purge_ne by congruence; reflexivity.
    + unfold exec. rewrite (send_code_simulated env transport req w Hv Hc).
      reflexivity.
  - unfold exec. rewrite (send_code_missing env transport req w Hm). reflexivity.
Qed.

(** ** The rate limiter, operation by operation *)

Lemma live_record key key' w :
  live (record key w) key'
  = if decide (key = key') then (live w key ++ [clock w])%list else live w key'.
Proof.
  unfold live at 1. rewrite ledger_record.
  change (clock (record key w)) with (clock w).
  destruct (decide (key = key')) as [->|]; [|reflexivity].
  rewrite filter_app. unfold live at 1. rewrite live_idemp. f_equal.
  rewrite filter_cons, decide_True by (unfold WINDOW_MS; lia). reflexivity.
Qed.

(** X6: [recordAttempt(key)] adds exactly one timestamp that counts: asked
    right afterwards, [canSend(key)] answers for one attempt more than it
    would have answered before, and its answer for any other key is what it
    would have been. *)
Theorem recordAttempt_then_canSend key key' w :
  eval (canSend key) (exec (recordAttempt key) w)
  = Normal (S (length (live w key)) <? MAX_ATTEMPTS)
  /\ ledger (exec (recordAttempt key) w) key = (live w key ++ [clock w])%list
  /\ (key' <> key ->
      eval (canSend key') (exec (recordAttempt key) w) = eval (canSend key') w
      /\ sendAttempts (exec (recordAttempt key) w) !! key'
         = sendAttempts w !! key').
Proof.
  unfold eval, exec. rewrite recordAttempt_eq, !canSend_eq. cbn [fst snd].
  rewrite !live_record, decide_True by reflexivity.
  rewrite ledger_record, decide_True by reflexivity.
  split; [|split; [reflexivity|]].
  - rewrite length_app, Nat.add_1_r. reflexivity.
  - intros Hne. rewrite decide_False by congruence.
    rewrite lookup_record_ne by congruence. split; reflexivity.
Qed.

Lemma purge_purge key w : purge key (purge key w) = purge key w.
Proof.
  unfold purge at 1. rewrite live_purge. unfold purge. cbn.
  unfold set_sendAttempts. cbn. f_equal. apply insert_insert_eq.
Qed.

Lemma filter_later (c1 c2 : Z) (arr : list Z) :
  (c1 <= c2)%Z ->
  filter (fun t => (c2 - t < WINDOW_MS)%Z)
    (filter (fun t => (c1 - t < WINDOW_MS)%Z) arr)
  = filter (fun t => (c2 - t < WINDOW_MS)%Z) arr.
Proof.
  intros Hle. induction arr as [|t arr IH]; [reflexivity|].
  rewrite (filter_cons _ t arr).
  destruct (decide (c1 - t < WINDOW_MS)%Z) as [H1|H1].
  - rewrite !filter_cons. destruct (decide (c2 - t < WINDOW_MS)%Z);
      rewrite IH; reflexivity.
  - rewrite IH, filter_cons, decide_False by lia. reflexivity.
Qed.

(** X7: [cleanupAttempts(key)] returns the list it stores; a second call at
    the same time changes nothing; the list it keeps is a sublist of the one
    it found, in the same order; and when the clock does not run backwards,
    what it drops would not count at any later time either. *)
Theorem cleanupAttempts_idempotent key w d :
  (0 <= d)%Z ->
  eval (cleanupAttempts key) w = Normal (ledger (exec (cleanupAttempts key) w) key)
  /\ cleanupAttempts key (exec (cleanupAttempts key) w)
     = (eval (cleanupAttempts key) w, exec (cleanupAttempts key) w)
  /\ sublist (ledger (exec (cleanupAttempts key) w) key) (ledger w key)
  /\ live (tick d (exec (cleanupAttempts key) w)) key = live (tick d w) key.
Proof.
  intros Hd. unfold eval, exec. rewrite !cleanupAttempts_eq. cbn [fst snd].
  rewrite ledger_purge, decide_True by reflexivity.
  split; [reflexivity|]. split; [|split].
  - rewrite live_purge, purge_purge. reflexivity.
  - apply sublist_filter.
  - unfold live.
    change (ledger (tick d (purge key w)) key) with (ledger (purge key w) key).
    change (ledger (tick d w) key) with (ledger w key).
    rewrite ledger_purge, decide_True by reflexivity.
    cbn [clock tick purge set_sendAttempts]. apply filter_later. lia.
Qed.

(** ** What an admitted request stores *)

Lemma send_code_sendAttempts req w :
  valid req -> SMTP_CONFIGURED env = true -> within_limit w req ->
  sendAttempts (exec (send_code env transport req) w)
  = sendAttempts (record (caller_ip req) (record (recipient_key req)
      (purge (caller_ip req) (purge (recipient_key req) w)))).
Proof.
  intros Hv Hc Hlim.
  destruct (send_code_passed_run env transport req w Hv Hc Hlim)
    as (r & w' & k & _ & _ & (Ha & _) & Hsc).
  unfold exec. rewrite Hsc, <- Ha. destruct (res_ok r); reflexivity.
Qed.

Lemma ledger_after_records e ip w :
  let w3 := record ip (record e (purge ip (purge e w))) in
  (e <> ip ->
   ledger w3 e = (live w e ++ [clock w])%list
   /\ ledger w3 ip = (live w ip ++ [clock w])%list)
  /\ (e = ip -> ledger w3 e = (live w e ++ [clock w; clock w])%list).
Proof.
  cbv zeta.
  rewrite !ledger_record, ?live_record, ?live_purge, ?ledger_record,
    ?live_purge.
  change (clock (record e (purge ip (purge e w)))) with (clock w).
  change (clock (purge ip (purge e w))) with (clock w).
  split.
  - intros Hne. rewrite (decide_False (P := ip = e)) by congruence.
    rewrite !decide_True by reflexivity.
    rewrite (decide_False (P := e = ip)) by congruence. split; reflexivity.
  - intros Heq. rewrite Heq, !decide_True by reflexivity.
    rewrite <- app_assoc. reflexivity.
Qed.

(** X8: the lists an admitted request leaves under its two keys: the entries
    that were still in the window, followed by the time of the request.  The
    two keys live in one map, so when the [email] of the request is the very
    string that identifies the caller, that one list receives the time
    twice. *)
Theorem send_code_stores req w :
  valid req -> SMTP_CONFIGURED env = true -> within_limit w req ->
  let e := recipient_key req in
  let ip := caller_ip req in
  (e <> ip ->
   ledger (exec (send_code env transport req) w) e = (live w e ++ [clock w])%list
   /\ ledger (exec (send_code env transport req) w) ip
      = (live w ip ++ [clock w])%list)
  /\ (e = ip ->
      ledger (exec (send_code env transport req) w) e
      = (live w e ++ [clock w; clock w])%list).
Proof.
  intros Hv Hc Hlim e ip.
  assert (Hled : forall key,
    ledger (exec (send_code env transport req) w) key
    = ledger (record ip (record e (purge ip (purge e w)))) key).
  { intros key. unfold ledger at 1.
    rewrite (send_code_sendAttempts req w Hv Hc Hlim). reflexivity. }
  rewrite !Hled. apply ledger_after_records.
Qed.

Lemma length_live_le w key : length (live w key) <= length (ledger w key).
Proof. apply length_filter. Qed.

Lemma send_code_bounded n req w :
  MAX_ATTEMPTS + 1 <= n
  \/ (MAX_ATTEMPTS <= n /\ recipient_key req <> caller_ip req) ->
  bounded n w -> bounded n (exec (send_code env transport req) w).
Proof.
  intros Hn Hb key. specialize (Hb key) as Hkey.
  destruct (valid_or_missing req) as [Hv|Hm];
    [|unfold exec; rewrite (send_code_missing env transport req w Hm); exact Hkey].
  destruct (SMTP_CONFIGURED env) eqn:Hc;
    [|unfold exec; rewrite (send_code_simulated env transport req w Hv Hc);
      exact Hkey].
  destruct (within_limit_dec w req) as [Hlim|Hlim].
  - unfold ledger at 1. rewrite (send_code_sendAttempts req w Hv Hc Hlim).
    fold (ledger (record (caller_ip req) (record (recipient_key req)
            (purge (caller_ip req) (purge (recipient_key req) w)))) key).
    destruct (ledger_after_records (recipient_key req) (caller_ip req) w)
      as [Hne Heq].
    destruct Hlim as [Hle Hli].
    destruct (decide (key = recipient_key req)) as [->|He].
    + destruct (decide (recipient_key req = caller_ip req)) as [E|E].
      * rewrite (Heq E), length_app. cbn [length]. unfold MAX_ATTEMPTS in *.
        destruct Hn as [Hn|[_ Hn]]; [lia|contradiction].
      * destruct (Hne E) as [-> _]. rewrite length_app. cbn [length].
        unfold MAX_ATTEMPTS in *. lia.
    + destruct (decide (key = caller_ip req)) as [->|Hi].
      * destruct (Hne ltac:(congruence)) as [_ ->]. rewrite length_app.
        cbn [length]. unfold MAX_ATTEMPTS in *. lia.
      * unfold ledger. rewrite !lookup_record_ne, !lookup_purge_ne by congruence.
        exact Hkey.
  - destruct (send_code_throttled env transport req w Hv Hc Hlim)
      as [_ [-> | ->]]; rewrite ?ledger_purge; repeat case_decide;
      rewrite ?live_purge;
      try exact Hkey;
      (etransitivity; [apply length_live_le|apply Hb]).
Qed.

Lemma bounded_empty n w : sendAttempts w = ∅ -> bounded n w.
Proof.
  intros H key. unfold ledger. rewrite H, lookup_empty. cbn. lia.
Qed.

(** X9: however many requests are handled and whatever time passes between
    them, starting from an empty map no list of the rate limiter grows beyond
    [MAX_ATTEMPTS + 1] timestamps, and none beyond [MAX_ATTEMPTS] when no
    request has an [email] equal to the address of its caller. *)
Theorem rate_limiter_bounded reqs : forall w,
  sendAttempts w = ∅ ->
  bounded (MAX_ATTEMPTS + 1) (serve env transport reqs w)
  /\ ((forall rd, rd ∈ reqs -> recipient_key rd.1 <> caller_ip rd.1) ->
      bounded MAX_ATTEMPTS (serve env transport reqs w)).
Proof.
  intros w Hempty.
  assert (Hgen : forall n,
    (forall rd, rd ∈ reqs ->
       MAX_ATTEMPTS + 1 <= n
       \/ (MAX_ATTEMPTS <= n /\ recipient_key rd.1 <> caller_ip rd.1)) ->
    forall w0, bounded n w0 -> bounded n (serve env transport reqs w0)).
  { intros n. induction reqs as [|[req d] reqs IH]; intros Hall w0 Hb;
      [exact Hb|].
    cbn [serve]. apply IH; [intros rd Hrd; apply Hall; right; exact Hrd|].
    intros key. change (ledger (tick d (send_code env transport req w0).2) key)
      with (ledger (exec (send_code env transport req) w0) key).
    apply send_code_bounded; [|exact Hb].
    apply (Hall (req, d)). left. }
  split.
  - apply Hgen; [intros; left; lia|apply bounded_empty, Hempty].
  - intros Hne. apply Hgen; [|apply bounded_empty, Hempty].
    intros rd Hrd. right. split; [lia|apply Hne, Hrd].
Qed.

(** ** How long a key stays locked *)

Lemma iter_recordAttempt key n w :
  ledger w key = [] ->
  clock (Nat.iter n (exec (recordAttempt key)) w) = clock w
  /\ ledger (Nat.iter n (exec (recordAttempt key)) w) key = replicate n (clock w).
Proof.
  intros Hfresh. induction n as [|n [IHc IHl]]; [split; [reflexivity|exact Hfresh]|].
  rewrite Nat.iter_succ.
  set (W := Nat.iter n (exec (recordAttempt key)) w) in *.
  unfold exec. rewrite recordAttempt_eq. cbn [snd].
  split; [exact IHc|].
  rewrite ledger_record, decide_True by reflexivity.
  unfold live. rewrite IHl, IHc, replicate_S_end. f_equal.
  apply filter_all_live. intros t Ht. apply elem_of_replicate_inv in Ht as ->.
  unfold WINDOW_MS. lia.
Qed.

(** X10: the lock lasts [WINDOW_MS] to the millisecond.  After [n] calls of
    [recordAttempt(key)] made at one time for a key that had no entries,
    [canSend(key)] asked [d] milliseconds later answers [true] exactly when
    [n < MAX_ATTEMPTS] or [d >= WINDOW_MS]: an entry aged [WINDOW_MS - 1]
    still counts, an entry aged exactly [WINDOW_MS] does not. *)
Theorem lockout_boundary key n d w :
  ledger w key = [] ->
  exists b,
    eval (canSend key) (tick d (Nat.iter n (exec (recordAttempt key)) w))
    = Normal b
    /\ (b = true <-> n < MAX_ATTEMPTS \/ (WINDOW_MS <= d)%Z).
Proof.
  intros Hfresh. destruct (iter_recordAttempt key n w Hfresh) as [Hc Hl].
  set (W := Nat.iter n (exec (recordAttempt key)) w) in *.
  unfold eval. rewrite canSend_eq. cbn [fst]. eexists. split; [reflexivity|].
  rewrite Nat.ltb_lt. unfold live.
  change (ledger (tick d W) key) with (ledger W key).
  cbn [clock tick]. rewrite Hl, Hc.
  destruct (Z.lt_ge_cases d WINDOW_MS) as [Hd|Hd].
  - rewrite filter_all_live, length_replicate.
    + split; [auto|]. intros [H|H]; [exact H|lia].
    + intros t Ht. apply elem_of_replicate_inv in Ht as ->. lia.
  - rewrite filter_none_live.
    + cbn. unfold MAX_ATTEMPTS. split; [auto|lia].
    + intros t Ht. apply elem_of_replicate_inv in Ht as ->. lia.
Qed.

(** ** The limit per key, whichever role the key plays *)

Lemma served_step_key c0 K i req w :
  valid req -> has_key K req -> SMTP_CONFIGURED env = true ->
  served c0 K i w ->
  (clock (exec (send_code env transport req) w) - c0 < WINDOW_MS)%Z ->
  served c0 K (S i) (exec (send_code env transport req) w).
Proof.
  intros Hv HK Hc Hs Hw.
  pose proof (send_code_clock env transport req w) as Hclk.
  assert (Hlive : all_live w) by (apply (served_all_live _ _ _ _ Hs); lia).
  destruct Hs as (Hc0 & Hin & Hcount).
  split; [lia|]. split.
  - intros key t. rewrite (send_code_ledger env transport req w key Hv Hc Hlive).
    rewrite elem_of_app. intros [Ht|Ht]; [specialize (Hin key t Ht); lia|].
    assert (t = clock w) as ->; [|lia].
    destruct (decide (within_limit w req)); [|inversion Ht].
    apply elem_of_app in Ht as [Ht|Ht];
      [destruct (decide (recipient_key req = key))
      |destruct (decide (caller_ip req = key))];
      first [apply list_elem_of_singleton in Ht; exact Ht | inversion Ht].
  - rewrite (send_code_ledger env transport req w K Hv Hc Hlive), !length_app.
    destruct (decide (within_limit w req)) as [Hlim|Hlim].
    + assert (Hgrow : 1 <= length ((if decide (recipient_key req = K)
                                    then [clock w] else [])
                                   ++ (if decide (caller_ip req = K)
                                       then [clock w] else []))).
      { rewrite length_app.
        destruct (decide (recipient_key req = K));
          destruct (decide (caller_ip req = K)); cbn [length]; try lia.
        exfalso. destruct HK; contradiction. }
      destruct Hcount as [H3|[Hi Hother]]; [left; lia|]. right. split; [lia|].
      intros key Hne. rewrite (send_code_ledger env transport req w key Hv Hc Hlive).
      rewrite decide_True by exact Hlim. rewrite !length_app.
      specialize (Hother key Hne).
      destruct (decide (recipient_key req = key)) as [E1|E1];
        destruct (decide (caller_ip req = key)) as [E2|E2]; cbn [length];
        try lia.
      exfalso. destruct HK as [HK|HK]; congruence.
    + cbn [length]. rewrite Nat.add_0_r.
      destruct Hcount as [H3|[Hi Hother]]; [left; exact H3|]. left.
      destruct (Nat.lt_ge_cases (length (ledger w K)) MAX_ATTEMPTS) as [Hlt|Hge];
        [|exact Hge].
      exfalso. apply Hlim. unfold within_limit.
      rewrite !(live_all_live _ _ Hlive).
      assert (Hany : forall key, length (ledger w key) < MAX_ATTEMPTS).
      { intros key. destruct (decide (key = K)) as [->|Hne]; [exact Hlt|].
        specialize (Hother key Hne). lia. }
      split; apply Hany.
Qed.

Lemma serve_served_key c0 K reqs : forall w i,
  SMTP_CONFIGURED env = true ->
  (forall rd, rd ∈ reqs -> (0 <= rd.2)%Z /\ valid rd.1 /\ has_key K rd.1) ->
  served c0 K i w ->
  (clock (serve env transport reqs w) - c0 < WINDOW_MS)%Z ->
  served c0 K (i + length reqs) (serve env transport reqs w).
Proof.
  induction reqs as [|[req d] reqs IH]; intros w i Hc Hall Hs Hw.
  - cbn [serve length]. rewrite Nat.add_0_r. exact Hs.
  - cbn [serve length] in *. fold (exec (send_code env transport req) w) in *.
    destruct (Hall (req, d) ltac:(left)) as (Hd & Hv & HK). cbn [fst snd] in *.
    assert (Hrest : forall rd, rd ∈ reqs ->
      (0 <= rd.2)%Z /\ valid rd.1 /\ has_key K rd.1)
      by (intros rd Hrd; apply Hall; right; exact Hrd).
    pose proof (serve_clock env transport reqs
      (tick d (exec (send_code env transport req) w))
      (fun rd Hrd => proj1 (Hrest rd Hrd))) as Hmono.
    cbn [clock tick] in Hmono.
    replace (i + S (length reqs)) with (S i + length reqs) by lia.
    apply IH; [exact Hc|exact Hrest| |exact Hw].
    apply served_tick; [exact Hd|]. apply served_step_key; try assumption. lia.
Qed.

(** X11: the limit holds per key, whichever role the key plays.  Starting
    from an empty map, after [MAX_ATTEMPTS] or more valid requests that all
    carry one key, as their [email] or as the address of their caller, made
    within the window, every further valid request carrying that key is
    answered 429, whatever its other key.  Callers for which the request
    holds no address all share the key ['unknown']. *)
Theorem shared_key_limit K reqs req w :
  SMTP_CONFIGURED env = true ->
  sendAttempts w = ∅ ->
  MAX_ATTEMPTS <= length reqs ->
  (forall rd, rd ∈ reqs -> (0 <= rd.2)%Z /\ valid rd.1 /\ has_key K rd.1) ->
  valid req -> has_key K req ->
  (clock (serve env transport reqs w) - clock w < WINDOW_MS)%Z ->
  eval (send_code env transport req) (serve env transport reqs w)
  = Normal throttled_response
  /\ (truthy (req_ip req) = false -> truthy (req_remoteAddress req) = false ->
      caller_ip req = "unknown"%string).
Proof.
  intros Hc Hempty Hlen Hall Hv HK Hw. split.
  - set (wT := serve env transport reqs w) in *.
    pose proof (serve_served_key (clock w) K reqs w 0 Hc Hall
                  (served_empty K w Hempty) Hw) as Hs.
    fold wT in Hs. cbn [Nat.add] in Hs.
    pose proof (served_all_live _ _ _ _ Hs Hw) as Hlive.
    apply (send_code_throttled env transport req wT Hv Hc).
    intros [He Hi]. rewrite (live_all_live _ _ Hlive) in He.
    rewrite (live_all_live _ _ Hlive) in Hi.
    assert (H3 : MAX_ATTEMPTS <= length (ledger wT K))
      by (destruct Hs as (_ & _ & [H3|[H3 _]]); lia).
    destruct HK as [HK|HK]; rewrite HK in *; lia.
  - intros H1 H2. unfold caller_ip, js_or. rewrite H1, H2. reflexivity.
Qed.

(** ** The worker, for any transport *)

(** X12: a run of the worker with the transport configured and an item at the
    head of the queue always completes, never touches the rate limiter, takes
    that one item and leaves the others in their order.  An item whose count
    has reached [RETRY_LIMIT] is dropped without a call of [sendMail]; an
    item one of whose attempts resolves is discarded after that attempt; only
    an item whose [RETRY_LIMIT] attempts were all rejected goes back, at the
    tail, with its count one higher. *)
Theorem worker_one_item w item rest :
  SMTP_CONFIGURED env = true -> FAILED_QUEUE w = item :: rest ->
  eval (worker env transport) w = Normal tt
  /\ sendAttempts (exec (worker env transport) w) = sendAttempts w
  /\ ((RETRY_LIMIT <= attempts item
       /\ FAILED_QUEUE (exec (worker env transport) w) = rest
       /\ sent (exec (worker env transport) w) = sent w)
      \/ (attempts item < RETRY_LIMIT
          /\ exists k info,
               k < RETRY_LIMIT
               /\ (forall j, j < k ->
                     is_rejected (transport (sent w + j) (worker_mail env item))
                     = true)
               /\ transport (sent w + k) (worker_mail env item) = Resolved info
               /\ FAILED_QUEUE (exec (worker env transport) w) = rest
               /\ sent (exec (worker env transport) w) = sent w + S k)
      \/ (attempts item < RETRY_LIMIT
          /\ (forall j, j < RETRY_LIMIT ->
                is_rejected (transport (sent w + j) (worker_mail env item)) = true)
          /\ FAILED_QUEUE (exec (worker env transport) w)
             = (rest ++ [bump item])%list
          /\ sent (exec (worker env transport) w) = sent w + RETRY_LIMIT)).
Proof.
  intros Hc Hq.
  destruct (Nat.le_gt_cases RETRY_LIMIT (attempts item)) as [Ha|Ha].
  - unfold eval, exec. rewrite (worker_drop env transport w item rest Hc Hq Ha).
    cbn. split; [reflexivity|]. split; [reflexivity|]. left. auto.
  - destruct (worker_retry_run env transport w item rest Hc Hq Ha)
      as (r & w' & k & _ & Hk & (Hatt & Hq' & Hs & _) & Hrej & Hlast & Hw).
    change (sent (set_FAILED_QUEUE rest w)) with (sent w) in Hs.
    change (FAILED_QUEUE (set_FAILED_QUEUE rest w)) with rest in Hq'.
    change (sendAttempts (set_FAILED_QUEUE rest w)) with (sendAttempts w) in Hatt.
    unfold eval, exec. rewrite Hw.
    destruct (transport (sent w + (k - 1)) (worker_mail env item))
      as [info|err] eqn:E.
    + subst r. cbn [res_ok fst snd].
      split; [reflexivity|]. split; [exact Hatt|]. right. left.
      split; [exact Ha|]. exists (k - 1), info.
      split; [lia|]. split; [exact Hrej|]. split; [exact E|].
      split; [exact Hq'|]. rewrite Hs. lia.
    + destruct Hlast as [-> ->]. cbn [res_ok fst snd].
      split; [reflexivity|]. split; [exact Hatt|]. right. right.
      split; [exact Ha|]. split; [|split; [cbn; rewrite Hq'; reflexivity|exact Hs]].
      intros j Hj. destruct (decide (j = RETRY_LIMIT - 1)) as [->|Hne].
      * rewrite E. reflexivity.
      * apply Hrej. lia.
Qed.

Section Failing.

Hypothesis configured : SMTP_CONFIGURED env = true.
Hypothesis always_fails : forall n mail, is_rejected (transport n mail) = true.

Lemma worker_failed_cycle_sent w item rest :
  FAILED_QUEUE w = item :: rest -> attempts item < RETRY_LIMIT ->
  FAILED_QUEUE (exec (worker env transport) w) = (rest ++ [bump item])%list
  /\ sent (exec (worker env transport) w) = sent w + RETRY_LIMIT.
Proof using configured always_fails.
  intros Hq Ha.
  destruct (worker_retry_run env transport w item rest configured Hq Ha)
    as (r & w' & k & _ & _ & (_ & Hq' & Hs & _) & _ & Hlast & Hw).
  pose proof (always_fails (sent w + (k - 1)) (worker_mail env item)) as Hrej.
  destruct (transport (sent w + (k - 1)) (worker_mail env item));
    [discriminate|].
  destruct Hlast as [-> ->]. unfold exec. rewrite Hw. cbn [res_ok snd].
  split; [cbn; rewrite Hq'; reflexivity|exact Hs].
Qed.

(** One pass over a queue of items that all have attempts left. *)
Lemma cycles_pass q : forall done w,
  FAILED_QUEUE w = (q ++ done)%list ->
  (forall item, item ∈ q -> attempts item < RETRY_LIMIT) ->
  FAILED_QUEUE (cycles env transport (length q) w) = (done ++ map bump q)%list
  /\ sent (cycles env transport (length q) w) = sent w + RETRY_LIMIT * length q.
Proof using configured always_fails.
  induction q as [|item q IH]; intros done w Hq Hall.
  - cbn. rewrite Hq, app_nil_r. split; [reflexivity|lia].
  - cbn [length cycles]. fold (exec (worker env transport) w).
    destruct (worker_failed_cycle_sent w item (q ++ done) Hq
                (Hall item ltac:(left))) as [Hq1 Hs1].
    rewrite <- app_assoc in Hq1.
    destruct (IH (done ++ [bump item])%list _ Hq1
                (fun it Hit => Hall it ltac:(right; exact Hit))) as [Hq2 Hs2].
    rewrite Hq2, Hs2, Hs1, <- app_assoc. split; [reflexivity|lia].
Qed.

Lemma cycles_failing_sent n : forall w item,
  FAILED_QUEUE w = [item] -> attempts item + n <= RETRY_LIMIT ->
  FAILED_QUEUE (cycles env transport n w) = [with_attempts item (attempts item + n)]
  /\ sent (cycles env transport n w) = sent w + RETRY_LIMIT * n.
Proof using configured always_fails.
  induction n as [|n IH]; intros w item Hq Ha.
  - cbn [cycles]. rewrite Hq, Nat.add_0_r. destruct item. split; [reflexivity|lia].
  - cbn [cycles]. fold (exec (worker env transport) w).
    destruct (worker_failed_cycle_sent w item [] Hq ltac:(lia)) as [Hq1 Hs1].
    cbn [app] in Hq1.
    destruct (IH _ _ Hq1 ltac:(cbn [attempts bump with_attempts]; lia))
      as [Hq2 Hs2].
    rewrite Hq2, Hs2, Hs1. split; [|lia].
    unfold bump, with_attempts. cbn [email username code attempts].
    do 2 f_equal. lia.
Qed.

End Failing.

(** X13: against a transport that rejects every call, one pass of the worker
    over a queue in which every item has attempts left (as many cycles as
    there are items) hands every item to the retry sender once, in queue
    order: afterwards the queue holds the same items in the same order, each
    with its count one higher, and [RETRY_LIMIT] calls of [sendMail] were
    made per item. *)
Theorem worker_pass_keeps_order q w :
  SMTP_CONFIGURED env = true ->
  (forall n mail, is_rejected (transport n mail) = true) ->
  FAILED_QUEUE w = q ->
  (forall item, item ∈ q -> attempts item < RETRY_LIMIT) ->
  FAILED_QUEUE (cycles env transport (length q) w) = map bump q
  /\ sent (cycles env transport (length q) w) = sent w + RETRY_LIMIT * length q.
Proof.
  intros Hc Hfail Hq Hall.
  apply (cycles_pass Hc Hfail q [] w); [rewrite app_nil_r; exact Hq|exact Hall].
Qed.

(** X14: the whole budget of a message that never gets through.  Against a
    transport that rejects every call, an admitted request arriving with the
    queue empty is answered 202 after [RETRY_LIMIT] calls of [sendMail]; the
    next three runs of the worker make [RETRY_LIMIT] calls each, the fourth
    drops the item, and no run after that makes a call: [4 * RETRY_LIMIT] = 12
    calls in all. *)
Theorem undeliverable_budget req w :
  SMTP_CONFIGURED env = true ->
  (forall n mail, is_rejected (transport n mail) = true) ->
  valid req -> within_limit w req -> FAILED_QUEUE w = [] ->
  let w1 := exec (send_code env transport req) w in
  eval (send_code env transport req) w = Normal queued_response
  /\ FAILED_QUEUE w1 = [item_of req]
  /\ sent w1 = sent w + RETRY_LIMIT
  /\ (forall n, n <= RETRY_LIMIT ->
        sent (cycles env transport n w1) = sent w + RETRY_LIMIT * (1 + n))
  /\ FAILED_QUEUE (cycles env transport (S RETRY_LIMIT) w1) = []
  /\ (forall n,
        sent (cycles env transport (S RETRY_LIMIT + n) w1)
        = sent w + 4 * RETRY_LIMIT)
  /\ 4 * RETRY_LIMIT = 12.
Proof.
  intros Hc Hfail Hv Hlim Hq0 w1.
  assert (H1 : eval (send_code env transport req) w = Normal queued_response
               /\ FAILED_QUEUE w1 = [item_of req]
               /\ sent w1 = sent w + RETRY_LIMIT).
  { subst w1. unfold eval, exec.
    rewrite (send_code_passed env transport req w Hv Hc Hlim), deliver_or_queue_eq.
    cbv zeta. set (w3 := record _ _).
    destruct (retrySend_run transport (mail_of env req) w3)
      as (r & w' & k & Hrun & Hk & (_ & Hq & Hs & _) & _ & Hlast).
    rewrite Hrun.
    pose proof (Hfail (sent w3 + (k - 1)) (mail_of env req)) as Hrej.
    destruct (transport (sent w3 + (k - 1)) (mail_of env req)); [discriminate|].
    destruct Hlast as [-> ->]. cbn [res_ok fst snd].
    split; [reflexivity|]. split.
    - cbn. rewrite Hq. change (FAILED_QUEUE w3) with (FAILED_QUEUE w).
      rewrite Hq0. reflexivity.
    - exact Hs. }
  destruct H1 as (Hresp & Hq1 & Hs1).
  assert (Hn : forall n, n <= RETRY_LIMIT ->
    FAILED_QUEUE (cycles env transport n w1) = [with_attempts (item_of req) n]
    /\ sent (cycles env transport n w1) = sent w + RETRY_LIMIT * (1 + n)).
  { intros n Hn.
    destruct (cycles_failing_sent Hc Hfail n w1 (item_of req) Hq1
                ltac:(cbn [attempts item_of]; lia)) as [Hqn Hsn].
    split; [exact Hqn|]. rewrite Hsn, Hs1. lia. }
  assert (Hlast : cycles env transport (S RETRY_LIMIT) w1
    = emit (ConsoleError "Dropping failed send after retries for")
        (set_FAILED_QUEUE [] (cycles env transport RETRY_LIMIT w1))).
  { replace (S RETRY_LIMIT) with (RETRY_LIMIT + 1) by lia.
    rewrite cycles_add. cbn [cycles].
    destruct (Hn RETRY_LIMIT (le_n _)) as [HqL _].
    rewrite (worker_drop env transport _ _ [] Hc HqL); [reflexivity|cbn; lia]. }
  split; [exact Hresp|]. split; [exact Hq1|]. split; [exact Hs1|].
  split; [intros n Hle; apply (Hn n Hle)|].
  split; [rewrite Hlast; reflexivity|]. split; [|reflexivity].
  intros n. rewrite cycles_add, cycles_empty by (rewrite Hlast; reflexivity).
  rewrite Hlast. cbn [sent emit set_FAILED_QUEUE].
  destruct (Hn RETRY_LIMIT (le_n _)) as [_ ->]. unfold RETRY_LIMIT. lia.
Qed.

(** ** Configuration *)

Lemma truthy_iff v : truthy v = true <-> exists s, v = Some s /\ s <> ""%string.
Proof.
  destruct v as [s|]; cbn.
  - rewrite negb_true_iff, String.eqb_neq. split.
    + intros H. exists s. split; [reflexivity|exact H].
    + intros (s' & Heq & H). congruence.
  - split; [discriminate|]. intros (s & H & _). discriminate.
Qed.

(** X15: the script sends real mail exactly when [SMTP_HOST], [SMTP_USER] and
    [SMTP_PASS] are all set to non-empty strings: a variable set to the empty
    string counts as unset.  The sender address is [FROM_EMAIL] when that is
    set and non-empty and [SMTP_USER] otherwise, so with the transport
    configured it is never missing or empty. *)
Theorem smtp_configuration :
  (SMTP_CONFIGURED env = true
   <-> exists host user pass,
         env_SMTP_HOST env = Some host /\ host <> ""%string
         /\ env_SMTP_USER env = Some user /\ user <> ""%string
         /\ env_SMTP_PASS env = Some pass /\ pass <> ""%string)
  /\ (forall from, env_FROM_EMAIL env = Some from -> from <> ""%string ->
        FROM_EMAIL env = Some from)
  /\ (env_FROM_EMAIL env = None \/ env_FROM_EMAIL env = Some ""%string ->
        FROM_EMAIL env = env_SMTP_USER env)
  /\ (SMTP_CONFIGURED env = true ->
        exists from, FROM_EMAIL env = Some from /\ from <> ""%string).
Proof.
  split; [|split; [|split]].
  - unfold SMTP_CONFIGURED. rewrite !andb_true_iff, !truthy_iff. split.
    + intros [[(h & Hh & Hh') (u & Hu & Hu')] (p & Hp & Hp')].
      exists h, u, p. repeat (split; [assumption|]). assumption.
    + intros (h & u & p & Hh & Hh' & Hu & Hu' & Hp & Hp').
      split; [split|]; eexists; split; eassumption.
  - intros from Hf Hne. unfold FROM_EMAIL, js_or.
    rewrite (proj2 (truthy_iff _)) by eauto. exact Hf.
  - intros [H|H]; unfold FROM_EMAIL, js_or; rewrite H; reflexivity.
  - apply FROM_EMAIL_configured.
Qed.

(** X16: with the transport unconfigured the process is inert: whatever
    requests arrive, valid or not, and however often the worker runs, the
    rate limiter and the queue stay as they were and [sendMail] is never
    called. *)
Theorem simulation_inert reqs n : forall w,
  SMTP_CONFIGURED env = false ->
  sendAttempts (serve env transport reqs w) = sendAttempts w
  /\ FAILED_QUEUE (serve env transport reqs w) = FAILED_QUEUE w
  /\ sent (serve env transport reqs w) = sent w
  /\ cycles env transport n (serve env transport reqs w)
     = serve env transport reqs w.
Proof.
  intros w Hsim.
  assert (Hcyc : forall w0, cycles env transport n w0 = w0).
  { intros w0. induction n as [|m IH]; [reflexivity|].
    cbn [cycles]. rewrite (worker_simulated env transport w0 Hsim). exact IH. }
  split; [|split; [|split; [|apply Hcyc]]];
    revert w; induction reqs as [|[req d] reqs IH]; intros w; try reflexivity;
    cbn [serve]; rewrite IH;
    (destruct (valid_or_missing req) as [Hv|Hm];
     [rewrite (send_code_simulated env transport req w Hv Hsim)
     |rewrite (send_code_missing env transport req w Hm)]); reflexivity.
Qed.

(** ** Requests that are turned away, and the passing of time *)

Lemma length_filter_later (c1 c2 : Z) (arr : list Z) :
  (c1 <= c2)%Z ->
  length (filter (fun t => (c2 - t < WINDOW_MS)%Z) arr)
  <= length (filter (fun t => (c1 - t < WINDOW_MS)%Z) arr).
Proof.
  intros Hle. rewrite <- (filter_later c1 c2 arr Hle). apply length_filter.
Qed.

Lemma live_tick_purge d key key' w :
  (0 <= d)%Z -> live (tick d (purge key w)) key' = live (tick d w) key'.
Proof.
  intros Hd. unfold live.
  change (ledger (tick d (purge key w)) key') with (ledger (purge key w) key').
  change (ledger (tick d w) key') with (ledger w key').
  rewrite ledger_purge. cbn [clock tick purge set_sendAttempts].
  destruct (decide (key = key')) as [->|]; [|reflexivity].
  apply filter_later. lia.
Qed.

(** X17: a request that is turned away with 429 changes no later decision of
    the rate limiter: at any later time every request is within the limit
    after it exactly when it would have been without it, so knocking on a
    locked key neither prolongs the lock nor locks anything else.  And time
    alone only unlocks: a request within the limit now is within the limit at
    any later time, as long as nothing is recorded in between. *)
Theorem throttled_changes_nothing req req' d w :
  valid req -> SMTP_CONFIGURED env = true -> ~ within_limit w req ->
  (0 <= d)%Z ->
  eval (send_code env transport req) w = Normal throttled_response
  /\ (within_limit (tick d (exec (send_code env transport req) w)) req'
      <-> within_limit (tick d w) req')
  /\ (within_limit w req' -> within_limit (tick d w) req').
Proof.
  intros Hv Hc Hlim Hd.
  destruct (send_code_throttled env transport req w Hv Hc Hlim) as [He Hw].
  split; [exact He|]. split.
  - unfold within_limit.
    destruct Hw as [-> | ->]; rewrite ?live_tick_purge by exact Hd;
      reflexivity.
  - unfold within_limit, live. intros [He' Hi'].
    change (ledger (tick d w)) with (ledger w). cbn [clock tick].
    split; (eapply Nat.le_lt_trans; [apply (length_filter_later (clock w)); lia|]);
      assumption.
Qed.


(** ** The two messages *)

Lemma append_assoc (s1 s2 s3 : string) :
  (s1 +:+ s2) +:+ s3 = s1 +:+ (s2 +:+ s3).
Proof.
  induction s1 as [|a s1 IH]; [reflexivity|].
  change (String a ((s1 +:+ s2) +:+ s3) = String a (s1 +:+ (s2 +:+ s3))).
  f_equal. exact IH.
Qed.

(** X19: the item queued for a request holds what the worker needs to send
    the message again: the worker's message for it has the sender, the
    recipient, the subject and the text of the handler's message.  Its HTML
    body is the handler's without the closing paragraph that tells the reader
    to ignore the mail. *)
Theorem retried_message req :
  let first := mail_of env req in
  let again := worker_mail env (item_of req) in
  mail_from again = mail_from first
  /\ mail_to again = mail_to first
  /\ mail_subject again = mail_subject first
  /\ mail_text again = mail_text first
  /\ mail_html first
     = mail_html again +:+ "<p>Якщо це не ви — ігноруйте цей лист.</p>"
  /\ mail_html again <> mail_html first.
Proof.
  cbv zeta. unfold mail_of, worker_mail, request_mail, item_of.
  cbn [mail_from mail_to mail_subject mail_text mail_html email username code].
  do 4 (split; [reflexivity|]).
  assert (Heq : forall a u b c,
    a +:+ u +:+ b +:+ c +:+ "</b></p><p>Якщо це не ви — ігноруйте цей лист.</p>"
    = (a +:+ u +:+ b +:+ c +:+ "</b></p>")
      +:+ "<p>Якщо це не ви — ігноруйте цей лист.</p>").
  { intros a u b c. rewrite !append_assoc. reflexivity. }
  split; [apply Heq|].
  rewrite Heq. intros H.
  assert (Hlen : forall s t : string, s = s +:+ t -> String.length t = 0).
  { intros s t. induction s as [|a s IH]; intros Hst.
    - change (""%string = t) in Hst. subst t. reflexivity.
    - change (String a s = String a (s +:+ t)) in Hst. apply IH.
      injection Hst as Hst. exact Hst. }
  apply Hlen in H. cbn in H. discriminate H.
Qed.

End Coverage.

(** ** The further properties at the sample inputs *)

Import Sample2.

Lemma valid_behind_nat recipient :
  recipient <> ""%string -> valid (behind_nat recipient).
Proof.
  intros H. exists recipient, "user"%string, "000000"%string.
  repeat split; [exact H|discriminate..].
Defined.

Lemma valid_echo : valid echo.
Proof.
  exists "10.0.0.9"%string, "echo"%string, "111111"%string.
  repeat split; discriminate.
Defined.

Lemma send_code_other_keys_witness :
  "carol@example.com"%string <> recipient_key bob
  /\ "carol@example.com"%string <> caller_ip bob
  /\ sendAttempts (exec (send_code env_smtp refusing bob) busy)
       !! "carol@example.com"%string
     = sendAttempts busy !! "carol@example.com"%string.
Proof.
  assert (H1 : "carol@example.com"%string <> recipient_key bob)
    by (intros H; vm_compute in H; discriminate H).
  assert (H2 : "carol@example.com"%string <> caller_ip bob)
    by (intros H; vm_compute in H; discriminate H).
  split; [exact H1|]. split; [exact H2|].
  exact (send_code_other_keys env_smtp refusing bob busy _ H1 H2).
Defined.

Lemma cleanupAttempts_idempotent_witness :
  (0 <= 900000)%Z
  /\ cleanupAttempts "user@example.com" (exec (cleanupAttempts "user@example.com") busy)
     = (eval (cleanupAttempts "user@example.com") busy,
        exec (cleanupAttempts "user@example.com") busy)
  /\ live (tick 900000 (exec (cleanupAttempts "user@example.com") busy))
       "user@example.com"
     = live (tick 900000 busy) "user@example.com".
Proof.
  assert (Hd : (0 <= 900000)%Z) by lia.
  split; [exact Hd|].
  destruct (cleanupAttempts_idempotent "user@example.com" busy 900000 Hd)
    as (_ & H2 & _ & H4).
  split; [exact H2|exact H4].
Defined.

Lemma within_limit_boot_echo : within_limit boot echo.
Proof. split; vm_compute; lia. Defined.

Lemma send_code_stores_witness :
  valid echo /\ SMTP_CONFIGURED env_smtp = true /\ within_limit boot echo
  /\ recipient_key echo = caller_ip echo
  /\ ledger (exec (send_code env_smtp refusing echo) boot) (recipient_key echo)
     = (live boot (recipient_key echo) ++ [clock boot; clock boot])%list
  /\ recipient_key bob <> caller_ip bob
  /\ ledger (exec (send_code env_smtp refusing bob) boot) (recipient_key bob)
     = (live boot (recipient_key bob) ++ [clock boot])%list.
Proof.
  split; [exact valid_echo|]. split; [reflexivity|].
  split; [exact within_limit_boot_echo|]. split; [reflexivity|].
  destruct (send_code_stores env_smtp refusing echo boot valid_echo eq_refl
              within_limit_boot_echo) as [_ Hsame].
  split; [exact (Hsame eq_refl)|].
  assert (Hne : recipient_key bob <> caller_ip bob)
    by (intros H; vm_compute in H; discriminate H).
  split; [exact Hne|].
  destruct (send_code_stores env_smtp refusing bob boot valid_bob eq_refl
              within_limit_boot_bob) as [Hdiff _].
  exact (proj1 (Hdiff Hne)).
Defined.

Lemma rate_limiter_bounded_witness :
  sendAttempts boot = ∅
  /\ bounded (MAX_ATTEMPTS + 1)
       (serve env_smtp accepting [(echo, 0); (echo, 0); (echo, 0); (bob, 0)]%Z boot)
  /\ length (ledger (serve env_smtp accepting
                       [(echo, 0); (echo, 0); (echo, 0); (bob, 0)]%Z boot)
               (recipient_key echo)) = MAX_ATTEMPTS + 1.
Proof.
  split; [reflexivity|]. split; [|reflexivity].
  exact (proj1 (rate_limiter_bounded env_smtp accepting
                  [(echo, 0); (echo, 0); (echo, 0); (bob, 0)]%Z boot eq_refl)).
Defined.

Lemma lockout_boundary_witness :
  ledger boot "user@example.com" = []
  /\ eval (canSend "user@example.com")
       (tick (WINDOW_MS - 1)
          (Nat.iter 3 (exec (recordAttempt "user@example.com")) boot))
     = Normal false
  /\ eval (canSend "user@example.com")
       (tick WINDOW_MS
          (Nat.iter 3 (exec (recordAttempt "user@example.com")) boot))
     = Normal true.
Proof.
  split; [reflexivity|].
  destruct (lockout_boundary "user@example.com" 3 (WINDOW_MS - 1) boot eq_refl)
    as (b1 & He1 & Hb1).
  destruct (lockout_boundary "user@example.com" 3 WINDOW_MS boot eq_refl)
    as (b2 & He2 & Hb2).
  split.
  - rewrite He1. destruct b1; [|reflexivity].
    destruct (proj1 Hb1 eq_refl) as [H|H]; [unfold MAX_ATTEMPTS in H; lia|lia].
  - rewrite He2. destruct b2; [reflexivity|].
    assert (H : false = true) by (apply Hb2; right; lia). discriminate H.
Defined.

Lemma shared_key_limit_witness :
  SMTP_CONFIGURED env_smtp = true
  /\ sendAttempts boot = ∅
  /\ (clock (serve env_smtp accepting [(bob, 1000); (carol, 1000); (dave, 1000)]%Z boot)
      - clock boot < WINDOW_MS)%Z
  /\ has_key "10.0.0.7" erin
  /\ length (live (serve env_smtp accepting
                     [(bob, 1000); (carol, 1000); (dave, 1000)]%Z boot)
               (recipient_key erin)) = 0
  /\ eval (send_code env_smtp accepting erin)
       (serve env_smtp accepting [(bob, 1000); (carol, 1000); (dave, 1000)]%Z boot)
     = Normal throttled_response.
Proof.
  assert (Hw : (clock (serve env_smtp accepting
                  [(bob, 1000); (carol, 1000); (dave, 1000)]%Z boot)
                - clock boot < WINDOW_MS)%Z) by (vm_compute; reflexivity).
  assert (Hcarol : valid carol) by (apply valid_behind_nat; discriminate).
  assert (Hdave : valid dave) by (apply valid_behind_nat; discriminate).
  assert (Herin : valid erin) by (apply valid_behind_nat; discriminate).
  assert (HK : has_key "10.0.0.7" erin) by (right; reflexivity).
  split; [reflexivity|]. split; [reflexivity|]. split; [exact Hw|].
  split; [exact HK|]. split; [reflexivity|].
  assert (Hall : forall rd : Request * Z,
    rd ∈ [(bob, 1000); (carol, 1000); (dave, 1000)]%Z ->
    (0 <= rd.2)%Z /\ valid rd.1 /\ has_key "10.0.0.7" rd.1).
  { intros rd Hrd. apply list_elem_of_In in Hrd. cbn [In] in Hrd.
    destruct Hrd as [<-|[<-|[<-|[]]]];
      (split; [cbn; lia|split; [assumption || exact valid_bob|right; reflexivity]]). }
  exact (proj1 (shared_key_limit env_smtp accepting "10.0.0.7"
                  [(bob, 1000); (carol, 1000); (dave, 1000)]%Z erin boot
                  eq_refl eq_refl ltac:(unfold MAX_ATTEMPTS; cbn; lia)
                  Hall Herin HK Hw)).
Defined.

Lemma worker_one_item_witness :
  SMTP_CONFIGURED env_smtp = true
  /\ FAILED_QUEUE two_queued = [item0; item1]
  /\ eval (worker env_smtp accepting) two_queued = Normal tt
  /\ FAILED_QUEUE (exec (worker env_smtp accepting) two_queued) = [item1]
  /\ sent (exec (worker env_smtp accepting) two_queued) = 1
  /\ FAILED_QUEUE (exec (worker env_smtp refusing) two_queued)
     = [item1; bump item0].
Proof.
  split; [reflexivity|]. split; [reflexivity|].
  destruct (worker_one_item env_smtp accepting two_queued item0 [item1]
              eq_refl eq_refl) as (He & _ & Hcases).
  destruct (worker_one_item env_smtp refusing two_queued item0 [item1]
              eq_refl eq_refl) as (_ & _ & Hcases').
  split; [exact He|].
  assert (Ha : ~ RETRY_LIMIT <= attempts item0)
    by (unfold RETRY_LIMIT; cbn; lia).
  split; [|split].
  - destruct Hcases as [(Hge & _)|[(_ & k & info & _ & _ & _ & Hq & _)|(_ & Hall & _)]].
    + contradiction.
    + exact Hq.
    + specialize (Hall 0 ltac:(unfold RETRY_LIMIT; lia)). discriminate Hall.
  - destruct Hcases as [(Hge & _)|[(_ & k & info & _ & Hrej & _ & _ & Hs)|(_ & Hall & _)]].
    + contradiction.
    + destruct k as [|k]; [exact Hs|].
      specialize (Hrej 0 ltac:(lia)). discriminate Hrej.
    + specialize (Hall 0 ltac:(unfold RETRY_LIMIT; lia)). discriminate Hall.
  - destruct Hcases' as [(Hge & _)|[(_ & k & info & _ & _ & Hres & _)|(_ & _ & Hq & _)]].
    + contradiction.
    + discriminate Hres.
    + exact Hq.
Defined.

Lemma worker_pass_keeps_order_witness :
  SMTP_CONFIGURED env_smtp = true
  /\ (forall n mail, is_rejected (refusing n mail) = true)
  /\ FAILED_QUEUE two_queued = [item0; item1]
  /\ (forall item, item ∈ [item0; item1] -> attempts item < RETRY_LIMIT)
  /\ FAILED_QUEUE (cycles env_smtp refusing 2 two_queued) = [bump item0; bump item1]
  /\ sent (cycles env_smtp refusing 2 two_queued) = 6.
Proof.
  assert (Hfail : forall n mail, is_rejected (refusing n mail) = true)
    by (intros n mail; reflexivity).
  assert (Hall : forall item, item ∈ [item0; item1] -> attempts item < RETRY_LIMIT).
  { intros item Hin. apply list_elem_of_In in Hin. cbn [In] in Hin.
    destruct Hin as [<-|[<-|[]]]; unfold RETRY_LIMIT; cbn; lia. }
  split; [reflexivity|]. split; [exact Hfail|]. split; [reflexivity|].
  split; [exact Hall|].
  exact (worker_pass_keeps_order env_smtp refusing [item0; item1] two_queued
           eq_refl Hfail eq_refl Hall).
Defined.

Lemma undeliverable_budget_witness :
  SMTP_CONFIGURED env_smtp = true
  /\ (forall n mail, is_rejected (refusing n mail) = true)
  /\ valid bob /\ within_limit boot bob /\ FAILED_QUEUE boot = []
  /\ eval (send_code env_smtp refusing bob) boot = Normal queued_response
  /\ sent (cycles env_smtp refusing 4
             (exec (send_code env_smtp refusing bob) boot)) = 12
  /\ sent (cycles env_smtp refusing 9
             (exec (send_code env_smtp refusing bob) boot)) = 12
  /\ FAILED_QUEUE (cycles env_smtp refusing 4
                     (exec (send_code env_smtp refusing bob) boot)) = [].
Proof.
  assert (Hfail : forall n mail, is_rejected (refusing n mail) = true)
    by (intros n mail; reflexivity).
  split; [reflexivity|]. split; [exact Hfail|]. split; [exact valid_bob|].
  split; [exact within_limit_boot_bob|]. split; [reflexivity|].
  destruct (undeliverable_budget env_smtp refusing bob boot eq_refl Hfail
              valid_bob within_limit_boot_bob eq_refl)
    as (He & _ & _ & _ & Hq & Hs & _).
  split; [exact He|]. split; [exact (Hs 0)|]. split; [exact (Hs 5)|exact Hq].
Defined.

Lemma simulation_inert_witness :
  SMTP_CONFIGURED env_bare = false
  /\ sendAttempts (serve env_bare refusing [(bob, 0); (no_code, 5); (bob, 0)]%Z busy)
     = sendAttempts busy
  /\ sent (serve env_bare refusing [(bob, 0); (no_code, 5); (bob, 0)]%Z busy) = sent busy
  /\ cycles env_bare refusing 3
       (serve env_bare refusing [(bob, 0); (no_code, 5); (bob, 0)]%Z queued)
     = serve env_bare refusing [(bob, 0); (no_code, 5); (bob, 0)]%Z queued.
Proof.
  split; [reflexivity|].
  destruct (simulation_inert env_bare refusing
              [(bob, 0); (no_code, 5); (bob, 0)]%Z 3 busy eq_refl)
    as (Ha & _ & Hs & _).
  destruct (simulation_inert env_bare refusing
              [(bob, 0); (no_code, 5); (bob, 0)]%Z 3 queued eq_refl)
    as (_ & _ & _ & Hc).
  split; [exact Ha|]. split; [exact Hs|exact Hc].
Defined.

Lemma not_within_limit_busy_bob : ~ within_limit busy bob.
Proof. intros [H _]. vm_compute in H. lia. Defined.

Lemma throttled_changes_nothing_witness :
  valid bob /\ SMTP_CONFIGURED env_smtp = true /\ ~ within_limit busy bob
  /\ (0 <= 1000)%Z
  /\ eval (send_code env_smtp refusing bob) busy = Normal throttled_response
  /\ (within_limit (tick 1000 (exec (send_code env_smtp refusing bob) busy)) carol
      <-> within_limit (tick 1000 busy) carol).
Proof.
  assert (Hd : (0 <= 1000)%Z) by lia.
  split; [exact valid_bob|]. split; [reflexivity|].
  split; [exact not_within_limit_busy_bob|]. split; [exact Hd|].
  destruct (throttled_changes_nothing env_smtp refusing bob carol 1000 busy
              valid_bob eq_refl not_within_limit_busy_bob Hd) as (He & Hiff & _).
  split; [exact He|exact Hiff].
Defined.


Lemma send_code_mails_witness :
  valid bob /\ SMTP_CONFIGURED env_smtp = true /\ within_limit boot bob
  /\ 1 <= sent (exec (send_code env_smtp refusing bob) boot) - sent boot <= RETRY_LIMIT
  /\ ~ (valid no_code /\ SMTP_CONFIGURED env_smtp = true /\ within_limit boot no_code)
  /\ sent (exec (send_code env_smtp refusing no_code) boot) = sent boot.
Proof.
  split; [exact valid_bob|]. split; [reflexivity|].
  split; [exact within_limit_boot_bob|].
  destruct (send_code_mails env_smtp refusing bob boot)
    as (evs & _ & Hs & Hadm & _).
  destruct (Hadm (conj valid_bob (conj eq_refl within_limit_boot_bob)))
    as (k & from & Hk & _ & Hlen & _).
  split; [rewrite Hs, Hlen; lia|].
  assert (Hnot : ~ (valid no_code /\ SMTP_CONFIGURED env_smtp = true
                    /\ within_limit boot no_code)).
  { intros ((e & u & c & Hf & _) & _). discriminate Hf. }
  split; [exact Hnot|].
  destruct (send_code_mails env_smtp refusing no_code boot)
    as (evs' & _ & Hs' & _ & Hnone).
  rewrite Hs', (Hnone Hnot). reflexivity.
Defined.
